(** * header-auth-worker: the request handler of
    [src/workers/header-auth-worker/src/index.ts]

    The worker reads the [CF_Authorization] cookie, decodes the payload of
    the token it holds (no signature check) and renders the claims; a second
    route serves a flag image from an object store as a base64 data URI.

    Module [JS] models the part of the platform the worker calls (strings,
    [atob] and [btoa], [JSON.parse], [Date.prototype.toUTCString]).  Module
    [Worker] is the embedding of the source file, one definition per source
    function and per response it builds.  Module [Vocabulary] holds what
    the statements need beyond the code.  The lemmas on the platform
    ([JSFacts]) and on the worker ([WorkerFacts]) follow, and module
    [Claims] settles the properties stated of the worker. *)

From Stdlib Require Import List NArith ZArith String Ascii Bool Lia.
From Stdlib.Strings Require Import Byte.
Import ListNotations.

(** ** The platform *)

Module JS.

(** A string value is its sequence of 16-bit code units. *)
Definition code_unit := N.
Definition jsstring := list code_unit.

(** A literal of the source text.  Every literal of the source is ASCII
    but for one arrow, which is written as its code unit. *)
Definition str (s : string) : jsstring :=
  map N_of_ascii (list_ascii_of_string s).

(** A character literal. *)
Definition chr (c : ascii) : code_unit := N_of_ascii c.

Definition dquote : jsstring := [34%N].
Definition newline : jsstring := [10%N].
Definition leftwards_arrow : jsstring := [8592%N].

Fixpoint tabs (n : nat) : jsstring :=
  match n with
  | O => []
  | S k => 9%N :: tabs k
  end.

(** One line of a template literal: [n] tabs, the text, the line end. *)
Definition line (n : nat) (text : jsstring) : jsstring :=
  tabs n ++ text ++ newline.

(** Strict equality of two strings. *)
Fixpoint eqb_str (a b : jsstring) : bool :=
  match a, b with
  | [], [] => true
  | x :: a', y :: b' => N.eqb x y && eqb_str a' b'
  | _, _ => false
  end.

(** [String.prototype.startsWith] *)
Fixpoint startsWith (s prefix : jsstring) {struct prefix} : bool :=
  match prefix, s with
  | [], _ => true
  | p :: prefix', c :: s' => N.eqb c p && startsWith s' prefix'
  | _ :: _, [] => false
  end.

(** [String.prototype.substring] with one argument inside the length. *)
Definition substring (s : jsstring) (start : nat) : jsstring := skipn start s.

(** [String.prototype.includes] *)
Fixpoint includes (s needle : jsstring) : bool :=
  startsWith s needle ||
  match s with
  | [] => false
  | _ :: s' => includes s' needle
  end.

(** [String.prototype.split] on a one-character separator: never an
    empty array, the empty string gives one empty segment. *)
Fixpoint split (s : jsstring) (sep : code_unit) : list jsstring :=
  match s with
  | [] => [[]]
  | c :: s' =>
      if N.eqb c sep then [] :: split s' sep
      else match split s' sep with
           | [] => [[c]]
           | seg :: segs => (c :: seg) :: segs
           end
  end.

(** WhiteSpace and LineTerminator of ECMAScript, what [trim] strips. *)
Definition is_white_space (c : code_unit) : bool :=
  existsb (N.eqb c)
    [9; 10; 11; 12; 13; 32; 160; 5760; 8192; 8193; 8194; 8195; 8196; 8197;
     8198; 8199; 8200; 8201; 8202; 8232; 8233; 8239; 8287; 12288; 65279]%N.

Fixpoint trimStart (s : jsstring) : jsstring :=
  match s with
  | [] => []
  | c :: s' => if is_white_space c then trimStart s' else s
  end.

Definition trimEnd (s : jsstring) : jsstring := rev (trimStart (rev s)).

(** [String.prototype.trim] *)
Definition trim (s : jsstring) : jsstring := trimEnd (trimStart s).

(** [s.replace(/c/g, d)] for one character [c] and one character [d]. *)
Definition replace_all (s : jsstring) (c d : code_unit) : jsstring :=
  map (fun x => if N.eqb x c then d else x) s.

(** [toUpperCase] on the letters a route admits: ASCII only there. *)
Definition upper_unit (c : code_unit) : code_unit :=
  if (97 <=? c)%N && (c <=? 122)%N then (c - 32)%N else c.

Definition toUpperCase (s : jsstring) : jsstring := map upper_unit s.

Definition is_ascii_letter (c : code_unit) : bool :=
  ((65 <=? c)%N && (c <=? 90)%N) || ((97 <=? c)%N && (c <=? 122)%N).

Definition is_digit (c : code_unit) : bool := (48 <=? c)%N && (c <=? 57)%N.

(** *** Exceptions

    What the worker can catch: its own [Error], the [DOMException] of
    [atob] and [btoa], the [SyntaxError] of [JSON.parse], the [TypeError]
    of a property read on [null]. *)
Inductive exn : Type :=
| Error (message : jsstring)
| InvalidCharacterError
| SyntaxError (text : jsstring)
| TypeError (property : jsstring).

Inductive completion (A : Type) : Type :=
| Normal (a : A)
| Throw (e : exn).
Arguments Normal {A} a.
Arguments Throw {A} e.

(** The wording of the messages of the platform's own exceptions is the
    engine's choice; the worker copies it into its error pages. *)
Class Engine : Type := {
  invalid_character_message : jsstring;
  syntax_error_message : jsstring -> jsstring;
  null_read_message : jsstring -> jsstring
}.

(** [error.message] *)
Definition message {E : Engine} (e : exn) : jsstring :=
  match e with
  | Error m => m
  | InvalidCharacterError => invalid_character_message
  | SyntaxError text => syntax_error_message text
  | TypeError property => null_read_message property
  end.

(** *** Base64: [btoa] and [atob] (forgiving-base64 of the Infra standard) *)

Definition base64_char (x : N) : code_unit :=
  if (x <? 26)%N then (65 + x)%N
  else if (x <? 52)%N then (97 + (x - 26))%N
  else if (x <? 62)%N then (48 + (x - 52))%N
  else if (x =? 62)%N then 43%N
  else 47%N.

Definition base64_index (c : code_unit) : option N :=
  if (65 <=? c)%N && (c <=? 90)%N then Some (c - 65)%N
  else if (97 <=? c)%N && (c <=? 122)%N then Some (c - 97 + 26)%N
  else if (48 <=? c)%N && (c <=? 57)%N then Some (c - 48 + 52)%N
  else if (c =? 43)%N then Some 62%N
  else if (c =? 47)%N then Some 63%N
  else None.

Definition equals_sign : code_unit := 61%N.

(** Three bytes give four characters; one or two bytes left over are
    padded with [=]. *)
Fixpoint base64_encode (bytes : list N) : jsstring :=
  match bytes with
  | [] => []
  | [a] =>
      [base64_char (a / 4); base64_char ((a mod 4) * 16);
       equals_sign; equals_sign]
  | [a; b] =>
      [base64_char (a / 4); base64_char ((a mod 4) * 16 + b / 16);
       base64_char ((b mod 16) * 4); equals_sign]
  | a :: b :: c :: rest =>
      base64_char (a / 4) :: base64_char ((a mod 4) * 16 + b / 16)
      :: base64_char ((b mod 16) * 4 + c / 64) :: base64_char (c mod 64)
      :: base64_encode rest
  end%N.

(** [btoa] throws on a character above U+00FF. *)
Definition btoa (data : jsstring) : completion jsstring :=
  if forallb (fun c => (c <=? 255)%N) data then Normal (base64_encode data)
  else Throw InvalidCharacterError.

Definition is_ascii_whitespace (c : code_unit) : bool :=
  existsb (N.eqb c) [9; 10; 12; 13; 32]%N.

(** If the data ends with one or two [=], remove them. *)
Definition strip_padding (data : jsstring) : jsstring :=
  match rev data with
  | [] => data
  | [c] => if N.eqb c equals_sign then [] else data
  | c :: d :: r =>
      if N.eqb c equals_sign then
        if N.eqb d equals_sign then rev r else rev (d :: r)
      else data
  end.

Fixpoint sextets (data : jsstring) : option (list N) :=
  match data with
  | [] => Some []
  | c :: data' =>
      match base64_index c, sextets data' with
      | Some x, Some xs => Some (x :: xs)
      | _, _ => None
      end
  end.

(** Four sextets fill the 24-bit buffer and give three bytes; a rest of
    three sextets drops two bits, a rest of two drops four. *)
Fixpoint base64_decode (xs : list N) : list N :=
  match xs with
  | x1 :: x2 :: x3 :: x4 :: rest =>
      let buffer := ((x1 * 64 + x2) * 64 + x3) * 64 + x4 in
      buffer / 65536 :: (buffer / 256) mod 256 :: buffer mod 256
      :: base64_decode rest
  | [x1; x2; x3] =>
      let buffer := ((x1 * 64 + x2) * 64 + x3) / 4 in
      [buffer / 256; buffer mod 256]
  | [x1; x2] => [(x1 * 64 + x2) / 16]
  | _ => []
  end%N.

Definition atob (data : jsstring) : completion jsstring :=
  let data := filter (fun c => negb (is_ascii_whitespace c)) data in
  let data :=
    if Nat.eqb (Nat.modulo (List.length data) 4) 0 then strip_padding data
    else data in
  if Nat.eqb (Nat.modulo (List.length data) 4) 1 then
    Throw InvalidCharacterError
  else match sextets data with
       | Some xs => Normal (base64_decode xs)
       | None => Throw InvalidCharacterError
       end.

(** *** Numbers

    A number is kept as the exact decimal its literal denotes: an integer,
    or [m / 10^k] when that is no integer.  The engine rounds a literal to
    the nearest double; the two agree on every integer up to [2^53] in
    magnitude, the range of the timestamps the worker is written for.
    [Infinity] and [NaN] come from ToNumber only, never from a literal. *)
Inductive number : Type :=
| Int (z : Z)
| Dec (m : Z) (k : positive)
| Infinity (negative : bool)
| NaN.

(** The number [m * 10^scale]. *)
Definition decimal_value (m scale : Z) : number :=
  if (0 <=? scale)%Z then Int (m * 10 ^ scale)
  else
    let d := (10 ^ (- scale))%Z in
    if (m mod d =? 0)%Z then Int (m / d) else Dec m (Z.to_pos (- scale)).

Definition multiply (n : number) (factor : Z) : number :=
  match n with
  | Int z => Int (z * factor)
  | Dec m k => decimal_value (m * factor) (Z.neg k)
  | Infinity negative =>
      if (factor =? 0)%Z then NaN
      else Infinity (if (factor <? 0)%Z then negb negative else negative)
  | NaN => NaN
  end.

(** ToBoolean on a number: zero is false. *)
Definition number_truthy (n : number) : bool :=
  match n with
  | Int z => negb (z =? 0)%Z
  | Dec _ _ | Infinity _ => true
  | NaN => false
  end.

Fixpoint units_of_uint (d : Decimal.uint) : jsstring :=
  match d with
  | Decimal.Nil => []
  | Decimal.D0 d' => 48%N :: units_of_uint d'
  | Decimal.D1 d' => 49%N :: units_of_uint d'
  | Decimal.D2 d' => 50%N :: units_of_uint d'
  | Decimal.D3 d' => 51%N :: units_of_uint d'
  | Decimal.D4 d' => 52%N :: units_of_uint d'
  | Decimal.D5 d' => 53%N :: units_of_uint d'
  | Decimal.D6 d' => 54%N :: units_of_uint d'
  | Decimal.D7 d' => 55%N :: units_of_uint d'
  | Decimal.D8 d' => 56%N :: units_of_uint d'
  | Decimal.D9 d' => 57%N :: units_of_uint d'
  end.

(** The decimal digits of a natural number, the digit 0 for zero. *)
Definition digits (n : N) : jsstring := units_of_uint (N.to_uint n).

(** ToZeroPaddedDecimalString *)
Definition zero_padded (n : N) (min_length : nat) : jsstring :=
  let d := digits n in
  repeat 48%N (min_length - List.length d) ++ d.

Fixpoint drop_zeros (s : jsstring) : jsstring :=
  match s with
  | [] => []
  | c :: s' => if N.eqb c 48 then drop_zeros s' else s
  end.

(** Number::toString in radix 10 for the positive value whose digits
    are [all] (no leading zero) scaled by [10^scale]: [k] significant
    digits [sig], decimal point after digit [n]. *)
Definition positive_to_string (all : jsstring) (scale : Z) : jsstring :=
  let sig := rev (drop_zeros (rev all)) in
  let k := Z.of_nat (List.length sig) in
  let n := (Z.of_nat (List.length all) + scale)%Z in
  let exponent :=
    (if (0 <? n - 1)%Z then [43%N] else [45%N]) ++
    digits (Z.to_N (Z.abs (n - 1))) in
  if ((k <=? n) && (n <=? 21))%Z then
    sig ++ repeat 48%N (Z.to_nat (n - k))
  else if ((0 <? n) && (n <=? 21))%Z then
    firstn (Z.to_nat n) sig ++ [46%N] ++ skipn (Z.to_nat n) sig
  else if ((-6 <? n) && (n <=? 0))%Z then
    [48%N; 46%N] ++ repeat 48%N (Z.to_nat (- n)) ++ sig
  else
    match sig with
    | [d] => [d; 101%N] ++ exponent
    | d :: more => [d; 46%N] ++ more ++ [101%N] ++ exponent
    | [] => []
    end.

(** The magnitude from which a double is infinite. *)
Definition overflow_bound : Z := (2 ^ 1024 - 2 ^ 970)%Z.

Definition number_to_string (n : number) : jsstring :=
  let sign (z : Z) : jsstring := if (z <? 0)%Z then [45%N] else [] in
  match n with
  | Int z =>
      if (z =? 0)%Z then [48%N]
      else if (overflow_bound <=? Z.abs z)%Z then sign z ++ str "Infinity"
      else sign z ++ positive_to_string (digits (Z.to_N (Z.abs z))) 0
  | Dec m k =>
      sign m ++ positive_to_string (digits (Z.to_N (Z.abs m))) (Z.neg k)
  | Infinity negative => (if negative then [45%N] else []) ++ str "Infinity"
  | NaN => str "NaN"
  end.

(** *** The values [JSON.parse] returns *)

#[warnings="-register-all"]
Inductive value : Type :=
| VNull
| VBool (b : bool)
| VNum (n : number)
| VStr (s : jsstring)
| VArr (elements : list value)
| VObj (members : list (jsstring * value)).

(** ToBoolean *)
Definition truthy (v : value) : bool :=
  match v with
  | VNull => false
  | VBool b => b
  | VNum n => number_truthy n
  | VStr s => negb (eqb_str s [])
  | VArr _ | VObj _ => true
  end.

Fixpoint join (sep : jsstring) (parts : list jsstring) : jsstring :=
  match parts with
  | [] => []
  | [x] => x
  | x :: rest => x ++ sep ++ join sep rest
  end.

(** ToString, what a template literal applies to an interpolated value:
    an array joins its elements with commas, [null] elements as empty. *)
Fixpoint to_string (v : value) : jsstring :=
  match v with
  | VNull => str "null"
  | VBool true => str "true"
  | VBool false => str "false"
  | VNum n => number_to_string n
  | VStr s => s
  | VArr elements =>
      join [44%N]
        (map (fun e => match e with VNull => [] | _ => to_string e end)
           elements)
  | VObj _ => str "[object Object]"
  end.

(** The value of a member: of two with one key the later one stays. *)
Fixpoint lookup (members : list (jsstring * value)) (key : jsstring)
  : option value :=
  match members with
  | [] => None
  | (k, v) :: rest =>
      match lookup rest key with
      | Some later => Some later
      | None => if eqb_str k key then Some v else None
      end
  end.

(** [v.name] for a name that no prototype defines ([email], [country],
    [iat]): [None] is [undefined]; reading from [null] throws. *)
Definition get (v : value) (name : jsstring) : completion (option value) :=
  match v with
  | VNull => Throw (TypeError name)
  | VObj members => Normal (lookup members name)
  | _ => Normal None
  end.

(** *** [JSON.parse]: a lexer, then a stack machine over the tokens *)

Inductive token : Type :=
| TLBrace | TRBrace | TLBracket | TRBracket | TColon | TComma
| TString (s : jsstring)
| TNumber (n : number)
| TTrue | TFalse | TNull.

Definition is_json_whitespace (c : code_unit) : bool :=
  existsb (N.eqb c) [9; 10; 13; 32]%N.

Definition is_lower (c : code_unit) : bool := (97 <=? c)%N && (c <=? 122)%N.

Definition is_number_char (c : code_unit) : bool :=
  is_digit c || existsb (N.eqb c) [43; 45; 46; 69; 101]%N.

Definition hex_value (c : code_unit) : option N :=
  if is_digit c then Some (c - 48)%N
  else if (65 <=? c)%N && (c <=? 70)%N then Some (c - 55)%N
  else if (97 <=? c)%N && (c <=? 102)%N then Some (c - 87)%N
  else None.

Fixpoint span (p : code_unit -> bool) (s : jsstring) : jsstring * jsstring :=
  match s with
  | [] => ([], [])
  | c :: s' =>
      if p c then let (a, b) := span p s' in (c :: a, b) else ([], s)
  end.

Definition digits_value (ds : jsstring) : Z :=
  fold_left (fun acc c => (acc * 10 + Z.of_N (c - 48))%Z) ds 0%Z.

(** A number literal: an optional minus, the integer part (one digit, or
    more with no leading zero), an optional fraction of a point and
    digits, an optional exponent of [e] or [E], a sign and digits. *)
Definition number_of_literal (s : jsstring) : option number :=
  let (negative, s1) :=
    match s with
    | 45%N :: r => (true, r)
    | _ => (false, s)
    end in
  let (int_part, s2) := span is_digit s1 in
  let int_ok :=
    match int_part with
    | [] => false
    | [_] => true
    | d :: _ => negb (N.eqb d 48)
    end in
  let fraction :=
    match s2 with
    | 46%N :: r =>
        let (f, r') := span is_digit r in
        match f with
        | [] => None
        | _ => Some (f, r')
        end
    | _ => Some ([], s2)
    end in
  match int_ok, fraction with
  | true, Some (frac_part, s3) =>
      let exponent :=
        match s3 with
        | [] => Some 0%Z
        | e :: r =>
            if N.eqb e 69 || N.eqb e 101 then
              let (minus, r1) :=
                match r with
                | 45%N :: r' => (true, r')
                | 43%N :: r' => (false, r')
                | _ => (false, r)
                end in
              let (ds, r2) := span is_digit r1 in
              match ds, r2 with
              | _ :: _, [] =>
                  Some (if minus then - digits_value ds else digits_value ds)%Z
              | _, _ => None
              end
            else None
        end in
      match exponent with
      | Some ex =>
          let m := digits_value (int_part ++ frac_part) in
          Some (decimal_value (if negative then - m else m)%Z
                  (ex - Z.of_nat (List.length frac_part))%Z)
      | None => None
      end
  | _, _ => None
  end.

Inductive lex_state : Type :=
| LStart
| LString (acc : jsstring)
| LEscape (acc : jsstring)
| LUnicode (acc : jsstring) (code : N) (missing : nat)
| LNumber (acc : jsstring)
| LWord (acc : jsstring).

(** The step between tokens.  Accumulators hold characters and tokens
    latest first. *)
Definition start_step (c : code_unit) (toks : list token)
  : option (lex_state * list token) :=
  if is_json_whitespace c then Some (LStart, toks)
  else if N.eqb c 34 then Some (LString [], toks)
  else if N.eqb c 123 then Some (LStart, TLBrace :: toks)
  else if N.eqb c 125 then Some (LStart, TRBrace :: toks)
  else if N.eqb c 91 then Some (LStart, TLBracket :: toks)
  else if N.eqb c 93 then Some (LStart, TRBracket :: toks)
  else if N.eqb c 58 then Some (LStart, TColon :: toks)
  else if N.eqb c 44 then Some (LStart, TComma :: toks)
  else if N.eqb c 45 || is_digit c then Some (LNumber [c], toks)
  else if is_lower c then Some (LWord [c], toks)
  else None.

Definition end_number (acc : jsstring) : option token :=
  option_map TNumber (number_of_literal (rev acc)).

Definition end_word (acc : jsstring) : option token :=
  let w := rev acc in
  if eqb_str w (str "true") then Some TTrue
  else if eqb_str w (str "false") then Some TFalse
  else if eqb_str w (str "null") then Some TNull
  else None.

Definition escape_value (c : code_unit) : option code_unit :=
  if N.eqb c 34 then Some 34%N
  else if N.eqb c 92 then Some 92%N
  else if N.eqb c 47 then Some 47%N
  else if N.eqb c 98 then Some 8%N
  else if N.eqb c 102 then Some 12%N
  else if N.eqb c 110 then Some 10%N
  else if N.eqb c 114 then Some 13%N
  else if N.eqb c 116 then Some 9%N
  else None.

Fixpoint lex (st : lex_state) (toks : list token) (s : jsstring)
  : option (list token) :=
  match s with
  | [] =>
      match st with
      | LStart => Some (rev toks)
      | LNumber acc => option_map (fun t => rev (t :: toks)) (end_number acc)
      | LWord acc => option_map (fun t => rev (t :: toks)) (end_word acc)
      | _ => None
      end
  | c :: s' =>
      let restart toks' :=
        match start_step c toks' with
        | Some (st', toks'') => lex st' toks'' s'
        | None => None
        end in
      match st with
      | LStart => restart toks
      | LString acc =>
          if N.eqb c 34 then lex LStart (TString (rev acc) :: toks) s'
          else if N.eqb c 92 then lex (LEscape acc) toks s'
          else if (c <? 32)%N then None
          else lex (LString (c :: acc)) toks s'
      | LEscape acc =>
          if N.eqb c 117 then lex (LUnicode acc 0 4) toks s'
          else match escape_value c with
               | Some x => lex (LString (x :: acc)) toks s'
               | None => None
               end
      | LUnicode acc code missing =>
          match hex_value c with
          | Some h =>
              let code' := (code * 16 + h)%N in
              match missing with
              | S (S m) => lex (LUnicode acc code' (S m)) toks s'
              | _ => lex (LString (code' :: acc)) toks s'
              end
          | None => None
          end
      | LNumber acc =>
          if is_number_char c then lex (LNumber (c :: acc)) toks s'
          else match end_number acc with
               | Some t => restart (t :: toks)
               | None => None
               end
      | LWord acc =>
          if is_lower c then lex (LWord (c :: acc)) toks s'
          else match end_word acc with
               | Some t => restart (t :: toks)
               | None => None
               end
      end
  end.

(** A frame is an enclosing array or object that waits for a value. *)
Inductive frame : Type :=
| FArr (elements : list value)
| FObj (members : list (jsstring * value)) (key : jsstring).

Inductive parse_state : Type :=
| SValue (stack : list frame)
| SArrOpen (stack : list frame)
| SArrNext (elements : list value) (stack : list frame)
| SObjOpen (stack : list frame)
| SObjKey (members : list (jsstring * value)) (stack : list frame)
| SObjColon (members : list (jsstring * value)) (key : jsstring)
    (stack : list frame)
| SObjNext (members : list (jsstring * value)) (stack : list frame)
| SDone (v : value).

Definition complete (v : value) (stack : list frame) : parse_state :=
  match stack with
  | [] => SDone v
  | FArr elements :: stack' => SArrNext (v :: elements) stack'
  | FObj members key :: stack' => SObjNext ((key, v) :: members) stack'
  end.

Definition start_value (t : token) (stack : list frame)
  : option parse_state :=
  match t with
  | TLBracket => Some (SArrOpen stack)
  | TLBrace => Some (SObjOpen stack)
  | TString s => Some (complete (VStr s) stack)
  | TNumber n => Some (complete (VNum n) stack)
  | TTrue => Some (complete (VBool true) stack)
  | TFalse => Some (complete (VBool false) stack)
  | TNull => Some (complete VNull stack)
  | _ => None
  end.

Definition parse_step (st : parse_state) (t : token) : option parse_state :=
  match st, t with
  | SValue stack, _ => start_value t stack
  | SArrOpen stack, TRBracket => Some (complete (VArr []) stack)
  | SArrOpen stack, _ => start_value t (FArr [] :: stack)
  | SArrNext elements stack, TComma => Some (SValue (FArr elements :: stack))
  | SArrNext elements stack, TRBracket =>
      Some (complete (VArr (rev elements)) stack)
  | SObjOpen stack, TRBrace => Some (complete (VObj []) stack)
  | SObjOpen stack, TString key => Some (SObjColon [] key stack)
  | SObjKey members stack, TString key => Some (SObjColon members key stack)
  | SObjColon members key stack, TColon =>
      Some (SValue (FObj members key :: stack))
  | SObjNext members stack, TComma => Some (SObjKey members stack)
  | SObjNext members stack, TRBrace =>
      Some (complete (VObj (rev members)) stack)
  | _, _ => None
  end.

Fixpoint parse_tokens (st : parse_state) (toks : list token)
  : option value :=
  match toks with
  | [] =>
      match st with
      | SDone v => Some v
      | _ => None
      end
  | t :: toks' =>
      match parse_step st t with
      | Some st' => parse_tokens st' toks'
      | None => None
      end
  end.

Definition JSON_parse (text : jsstring) : completion value :=
  match lex LStart [] text with
  | Some toks =>
      match parse_tokens (SValue []) toks with
      | Some v => Normal v
      | None => Throw (SyntaxError text)
      end
  | None => Throw (SyntaxError text)
  end.

(** *** ToNumber, what [*] applies to an operand that is no number *)

Definition digit_in_radix (radix : N) (c : code_unit) : option N :=
  match hex_value c with
  | Some h => if (h <? radix)%N then Some h else None
  | None => None
  end.

Fixpoint radix_value (radix : N) (acc : N) (s : jsstring) : option N :=
  match s with
  | [] => Some acc
  | c :: s' =>
      match digit_in_radix radix c with
      | Some h => radix_value radix (acc * radix + h)%N s'
      | None => None
      end
  end.

Definition radix_literal (radix : N) (s : jsstring) : number :=
  match s with
  | [] => NaN
  | _ =>
      match radix_value radix 0 s with
      | Some n => Int (Z.of_N n)
      | None => NaN
      end
  end.

(** A decimal literal of StringToNumber: digits may lack on one side of
    the point, zeros may lead. *)
Definition decimal_literal (negative : bool) (s : jsstring) : number :=
  let (int_part, s1) := span is_digit s in
  let (frac_part, s2) :=
    match s1 with
    | 46%N :: r => span is_digit r
    | _ => ([], s1)
    end in
  let exponent :=
    match s2 with
    | [] => Some 0%Z
    | e :: r =>
        if N.eqb e 69 || N.eqb e 101 then
          let (minus, r1) :=
            match r with
            | 45%N :: r' => (true, r')
            | 43%N :: r' => (false, r')
            | _ => (false, r)
            end in
          let (ds, r2) := span is_digit r1 in
          match ds, r2 with
          | _ :: _, [] =>
              Some (if minus then - digits_value ds else digits_value ds)%Z
          | _, _ => None
          end
        else None
    end in
  match int_part ++ frac_part, exponent with
  | _ :: _, Some ex =>
      let m := digits_value (int_part ++ frac_part) in
      decimal_value (if negative then - m else m)%Z
        (ex - Z.of_nat (List.length frac_part))%Z
  | _, _ => NaN
  end.

(** StringToNumber: surrounding white space is dropped, the empty string
    is zero, what is no numeric literal is NaN. *)
Definition StringToNumber (s : jsstring) : number :=
  match trim s with
  | [] => Int 0
  | 48%N :: 120%N :: r | 48%N :: 88%N :: r => radix_literal 16 r
  | 48%N :: 111%N :: r | 48%N :: 79%N :: r => radix_literal 8 r
  | 48%N :: 98%N :: r | 48%N :: 66%N :: r => radix_literal 2 r
  | t =>
      let (negative, u) :=
        match t with
        | 45%N :: r => (true, r)
        | 43%N :: r => (false, r)
        | _ => (false, t)
        end in
      if eqb_str u (str "Infinity") then Infinity negative
      else decimal_literal negative u
  end.

Definition ToNumber (v : value) : number :=
  match v with
  | VNull => Int 0
  | VBool b => Int (if b then 1 else 0)
  | VNum n => n
  | VStr s => StringToNumber s
  | VArr _ | VObj _ => StringToNumber (to_string v)
  end.

(** *** [Date]: time values, in milliseconds since the epoch *)

Definition msPerDay : Z := 86400000.
Definition msPerHour : Z := 3600000.
Definition msPerMinute : Z := 60000.
Definition msPerSecond : Z := 1000.

(** TimeClip: a time value past 8.64e15 in magnitude is no date
    ([None] is NaN); a fraction is cut off towards zero. *)
Definition TimeClip (n : number) : option Z :=
  match n with
  | Int z => if (Z.abs z <=? 8640000000000000)%Z then Some z else None
  | Dec m k =>
      let q := Z.quot m (10 ^ Z.pos k) in
      if (Z.abs q <? 8640000000000000)%Z then Some q else None
  | Infinity _ | NaN => None
  end.

(** [new Date(value)] on a number *)
Definition Date_new (n : number) : option Z := TimeClip n.

Definition Day (t : Z) : Z := (t / msPerDay)%Z.

Definition DayFromYear (y : Z) : Z :=
  (365 * (y - 1970) + (y - 1969) / 4 - (y - 1901) / 100 + (y - 1601) / 400)%Z.

(** The year of a day: the largest [y] with [DayFromYear y <= day].  It
    is one of the three years around the mean-length estimate. *)
Definition YearFromDay (day : Z) : Z :=
  let estimate := (1970 + day * 400 / 146097)%Z in
  if (DayFromYear (estimate + 1) <=? day)%Z then (estimate + 1)%Z
  else if (DayFromYear estimate <=? day)%Z then estimate
  else (estimate - 1)%Z.

Definition YearFromTime (t : Z) : Z := YearFromDay (Day t).

Definition leap_days (y : Z) : Z :=
  if negb (y mod 4 =? 0)%Z then 0%Z
  else if negb (y mod 100 =? 0)%Z then 1%Z
  else if negb (y mod 400 =? 0)%Z then 0%Z
  else 1%Z.

Definition InLeapYear (t : Z) : Z := leap_days (YearFromTime t).

Definition DayWithinYear (t : Z) : Z :=
  (Day t - DayFromYear (YearFromTime t))%Z.

Definition MonthFromTime (t : Z) : Z :=
  let d := DayWithinYear t in
  let l := InLeapYear t in
  (if d <? 31 then 0
   else if d <? 59 + l then 1
   else if d <? 90 + l then 2
   else if d <? 120 + l then 3
   else if d <? 151 + l then 4
   else if d <? 181 + l then 5
   else if d <? 212 + l then 6
   else if d <? 243 + l then 7
   else if d <? 273 + l then 8
   else if d <? 304 + l then 9
   else if d <? 334 + l then 10
   else 11)%Z.

Definition DateFromTime (t : Z) : Z :=
  let d := DayWithinYear t in
  let l := InLeapYear t in
  match MonthFromTime t with
  | 0 => d + 1
  | 1 => d - 30
  | 2 => d - 58 - l
  | 3 => d - 89 - l
  | 4 => d - 119 - l
  | 5 => d - 150 - l
  | 6 => d - 180 - l
  | 7 => d - 211 - l
  | 8 => d - 242 - l
  | 9 => d - 272 - l
  | 10 => d - 303 - l
  | _ => d - 333 - l
  end%Z.

Definition WeekDay (t : Z) : Z := ((Day t + 4) mod 7)%Z.
Definition HourFromTime (t : Z) : Z := ((t / msPerHour) mod 24)%Z.
Definition MinFromTime (t : Z) : Z := ((t / msPerMinute) mod 60)%Z.
Definition SecFromTime (t : Z) : Z := ((t / msPerSecond) mod 60)%Z.

Definition weekday_name (d : Z) : jsstring :=
  nth (Z.to_nat d)
    (map str ["Sun"; "Mon"; "Tue"; "Wed"; "Thu"; "Fri"; "Sat"]%string) [].

Definition month_name (m : Z) : jsstring :=
  nth (Z.to_nat m)
    (map str ["Jan"; "Feb"; "Mar"; "Apr"; "May"; "Jun";
              "Jul"; "Aug"; "Sep"; "Oct"; "Nov"; "Dec"]%string) [].

(** TimeString: the time of day and the zone name *)
Definition TimeString (t : Z) : jsstring :=
  zero_padded (Z.to_N (HourFromTime t)) 2 ++ [58%N] ++
  zero_padded (Z.to_N (MinFromTime t)) 2 ++ [58%N] ++
  zero_padded (Z.to_N (SecFromTime t)) 2 ++ str " GMT".

(** [Date.prototype.toUTCString] *)
Definition toUTCString (tv : option Z) : jsstring :=
  match tv with
  | None => str "Invalid Date"
  | Some t =>
      let yv := YearFromTime t in
      weekday_name (WeekDay t) ++ str ", " ++
      zero_padded (Z.to_N (DateFromTime t)) 2 ++ str " " ++
      month_name (MonthFromTime t) ++ str " " ++
      (if (yv <? 0)%Z then str "-" else []) ++
      zero_padded (Z.to_N (Z.abs yv)) 4 ++ str " " ++
      TimeString t
  end.

(** *** A statement that may throw, then the next one *)

Definition bind {A B : Type} (c : completion A) (k : A -> completion B)
  : completion B :=
  match c with
  | Normal a => k a
  | Throw e => Throw e
  end.

Notation "x <~ c ;; k" := (bind c (fun x => k))
  (at level 61, c at next level, right associativity).

End JS.

(** ** The worker: [src/workers/header-auth-worker/src/index.ts] *)

Module Worker.
Import JS.

(** What [new Response(body, init)] is given: the status defaults to 200. *)
Record Response : Type := {
  body : jsstring;
  status : N;
  headers : list (jsstring * jsstring)
}.

Definition html_headers : list (jsstring * jsstring) :=
  [(str "Content-Type", str "text/html")].

(** What the handler reads of a request: the path of its URL and the
    value of its [Cookie] header, [None] when there is no such header. *)
Record Request : Type := {
  pathname : jsstring;
  cookie : option jsstring
}.

(** [env.FLAGS.get(key)] and then [flag.blob()]: either may reject; the
    bucket has no object under the key ([null]); or the bytes arrive. *)
Inductive R2Get : Type :=
| Rejects (e : exn)
| Missing
| Found (blob : completion (list byte)).

Record Env : Type := { FLAGS : jsstring -> R2Get }.

(** [renderHTML]: the page shell around a title and a content. *)
Definition renderHTML (title content : jsstring) : jsstring :=
  newline ++
  line 2 (str "<!DOCTYPE html>") ++
  line 2 (str "<html lang=" ++ dquote ++ str "en" ++ dquote ++ str ">") ++
  line 2 (str "<head>") ++
  line 3 (str "<meta charset=" ++ dquote ++ str "UTF-8" ++ dquote ++
    str ">") ++
  line 3 (str "<meta name=" ++ dquote ++ str "viewport" ++ dquote ++
    str " content=" ++ dquote ++ str "width=device-width, initial-scale=1.0" ++
    dquote ++ str ">") ++
  line 3 (str "<title>" ++ title ++ str "</title>") ++
  line 3 (str "<style>") ++
  line 4 (str "body {") ++
  line 5 (str "font-family: -apple-system, BlinkMacSystemFont, " ++
    str "'Segoe UI', Roboto, sans-serif;") ++
  line 5 (str "max-width: 800px;") ++
  line 5 (str "margin: 50px auto;") ++
  line 5 (str "padding: 20px;") ++
  line 5 (str "line-height: 1.6;") ++
  line 4 (str "}") ++
  line 4 (str "h1 {") ++
  line 5 (str "color: #333;") ++
  line 5 (str "border-bottom: 2px solid #0066cc;") ++
  line 5 (str "padding-bottom: 10px;") ++
  line 4 (str "}") ++
  line 4 (str "a {") ++
  line 5 (str "color: #0066cc;") ++
  line 5 (str "text-decoration: none;") ++
  line 5 (str "font-weight: bold;") ++
  line 4 (str "}") ++
  line 4 (str "a:hover {") ++
  line 5 (str "text-decoration: underline;") ++
  line 4 (str "}") ++
  line 4 (str "p {") ++
  line 5 (str "font-size: 18px;") ++
  line 5 (str "color: #555;") ++
  line 4 (str "}") ++
  line 3 (str "</style>") ++
  line 2 (str "</head>") ++
  line 2 (str "<body>") ++
  line 3 (str "<h1>" ++ title ++ str "</h1>") ++
  line 3 content ++
  line 2 (str "</body>") ++
  line 2 (str "</html>") ++
  tabs 1.

(** [decodeJWT]: the payload of a token, no signature check. *)
Definition decodeJWT (jwt : jsstring) : completion value :=
  let parts := split jwt (chr ".") in
  if negb (Nat.eqb (List.length parts) 3) then
    Throw (Error (str "Invalid JWT format"))
  else
    let payload := nth 1 parts [] in
    let base64 :=
      replace_all (replace_all payload (chr "-") (chr "+")) (chr "_")
        (chr "/") in
    jsonPayload <~ atob base64 ;;
    JSON_parse jsonPayload.

(** [blobToBase64]: the loop appends one character per byte. *)
Definition blobToBase64 (blob : list byte) : completion jsstring :=
  let binary :=
    fold_left (fun binary b => binary ++ [Byte.to_N b]) blob [] in
  btoa binary.

Definition cookie_name : jsstring := str "CF_Authorization=".

(** The loop over the cookies of [handleSecure], left at the first hit. *)
Fixpoint find_token (cookies : list jsstring) : option jsstring :=
  match cookies with
  | [] => None
  | cookie :: rest =>
      let trimmed := trim cookie in
      if startsWith trimmed cookie_name then
        Some (substring trimmed (List.length cookie_name))
      else find_token rest
  end.

(** [jwtToken] after the loop: [None] is [null]. *)
Definition jwtToken_of (cookieHeader : option jsstring) : option jsstring :=
  match cookieHeader with
  | None | Some [] => None
  | Some header => find_token (split header (chr ";"))
  end.

(** [x || 'Unknown'] *)
Definition or_unknown (x : option value) : value :=
  match x with
  | Some v => if truthy v then v else VStr (str "Unknown")
  | None => VStr (str "Unknown")
  end.

(** The [timestamp] of [handleSecure]: the conditional on [payload.iat]. *)
Definition issued_at (payload_iat : option value) : jsstring :=
  match payload_iat with
  | Some iat =>
      if truthy iat then
        toUTCString (Date_new (multiply (ToNumber iat) 1000))
      else str "Unknown"
  | None => str "Unknown"
  end.

(** The content of the claims page: the two template literals
    [message] and [countryLink] inside the paragraph. *)
Definition claims_content (email country : value) (timestamp : jsstring)
  : jsstring :=
  let message :=
    to_string email ++ str " authenticated at " ++ timestamp ++
    str " from " in
  let countryLink :=
    str "<a href=" ++ dquote ++ str "/secure/" ++ to_string country ++
    dquote ++ str ">" ++ to_string country ++ str "</a>" in
  str "<p>" ++ message ++ countryLink ++ str "</p>".

(** The [try] block of [handleSecure]. *)
Definition claims_page (jwtToken : jsstring) : completion jsstring :=
  payload <~ decodeJWT jwtToken ;;
  payload_email <~ get payload (str "email") ;;
  let email := or_unknown payload_email in
  payload_country <~ get payload (str "country") ;;
  let country := or_unknown payload_country in
  payload_iat <~ get payload (str "iat") ;;
  let timestamp := issued_at payload_iat in
  Normal (renderHTML (str "Authentication Info")
            (claims_content email country timestamp)).

(** The three responses of [handleSecure]. *)
Definition unauthenticated : Response :=
  {| body :=
       renderHTML (str "Authentication Required")
         (str "<p>No Cloudflare Access JWT found. Please authenticate.</p>");
     status := 401%N;
     headers := html_headers |}.

Definition claims_response (html : jsstring) : Response :=
  {| body := html; status := 200%N; headers := html_headers |}.

Definition jwt_error {E : Engine} (error : exn) : Response :=
  {| body :=
       renderHTML (str "Error")
         (str "<p>Error parsing JWT: " ++ message error ++ str "</p>");
     status := 500%N;
     headers := html_headers |}.

(** [handleSecure] from [if (!jwtToken)] on: no token is [null] or the
    empty string. *)
Definition secure_response {E : Engine} (jwtToken : option jsstring)
  : Response :=
  match jwtToken with
  | None | Some [] => unauthenticated
  | Some token =>
      match claims_page token with
      | Normal html => claims_response html
      | Throw error => jwt_error error
      end
  end.

(** [handleSecure]: the route [/secure]. *)
Definition handleSecure {E : Engine} (request : Request) : Response :=
  secure_response (jwtToken_of (cookie request)).

(** The page of [handleCountryFlag] around the image data. *)
Definition flag_page (country base64 : jsstring) : jsstring :=
  newline ++
  line 3 (str "<!DOCTYPE html>") ++
  line 3 (str "<html lang=" ++ dquote ++ str "en" ++ dquote ++ str ">") ++
  line 3 (str "<head>") ++
  line 4 (str "<meta charset=" ++ dquote ++ str "UTF-8" ++ dquote ++
    str ">") ++
  line 4 (str "<meta name=" ++ dquote ++ str "viewport" ++ dquote ++
    str " content=" ++ dquote ++ str "width=device-width, initial-scale=1.0" ++
    dquote ++ str ">") ++
  line 4 (str "<title>Flag: " ++ country ++ str "</title>") ++
  line 4 (str "<style>") ++
  line 5 (str "body {") ++
  line 6 (str "font-family: -apple-system, BlinkMacSystemFont, " ++
    str "'Segoe UI', Roboto, sans-serif;") ++
  line 6 (str "max-width: 800px;") ++
  line 6 (str "margin: 50px auto;") ++
  line 6 (str "padding: 20px;") ++
  line 6 (str "text-align: center;") ++
  line 5 (str "}") ++
  line 5 (str ".flag-container {") ++
  line 6 (str "margin: 30px 0;") ++
  line 6 (str "border: 1px solid #ddd;") ++
  line 6 (str "border-radius: 8px;") ++
  line 6 (str "padding: 20px;") ++
  line 6 (str "background: #f9f9f9;") ++
  line 5 (str "}") ++
  line 5 (str ".flag-container img {") ++
  line 6 (str "max-width: 100%;") ++
  line 6 (str "height: auto;") ++
  line 6 (str "border: 2px solid #333;") ++
  line 6 (str "box-shadow: 0 4px 6px rgba(0,0,0,0.1);") ++
  line 5 (str "}") ++
  line 5 (str ".back-link {") ++
  line 6 (str "margin-top: 30px;") ++
  line 6 (str "font-size: 16px;") ++
  line 5 (str "}") ++
  line 5 (str ".back-link a {") ++
  line 6 (str "color: #0066cc;") ++
  line 6 (str "text-decoration: none;") ++
  line 5 (str "}") ++
  line 5 (str ".back-link a:hover {") ++
  line 6 (str "text-decoration: underline;") ++
  line 5 (str "}") ++
  line 4 (str "</style>") ++
  line 3 (str "</head>") ++
  line 3 (str "<body>") ++
  line 4 (str "<h1>Country: " ++ country ++ str "</h1>") ++
  line 4 (str "<div class=" ++ dquote ++ str "flag-container" ++ dquote ++
    str ">") ++
  line 5 (str "<img src=" ++ dquote ++ str "data:image/png;base64," ++
    base64 ++ dquote ++ str " alt=" ++ dquote ++ str "Flag of " ++ country ++
    dquote ++ str ">") ++
  line 4 (str "</div>") ++
  line 4 (str "<div class=" ++ dquote ++ str "back-link" ++ dquote ++
    str ">") ++
  line 5 (str "<a href=" ++ dquote ++ str "/secure" ++ dquote ++ str ">" ++
    leftwards_arrow ++ str " Back to authentication info</a>") ++
  line 4 (str "</div>") ++
  line 3 (str "</body>") ++
  line 3 (str "</html>") ++
  tabs 2.

(** The responses of [handleCountryFlag]. *)
Definition flag_error {E : Engine} (error : exn) : Response :=
  {| body :=
       renderHTML (str "Error")
         (str "<p>Error loading flag: " ++ message error ++ str "</p>");
     status := 500%N;
     headers := html_headers |}.

Definition flag_missing (country : jsstring) : Response :=
  {| body :=
       renderHTML (str "Flag for " ++ country)
         (str "<p>Flag for country code " ++ dquote ++ country ++
          dquote ++ str " not found.</p>" ++ newline ++ tabs 5 ++
          str "<p><a href=" ++ dquote ++ str "/secure" ++ dquote ++
          str ">" ++ leftwards_arrow ++
          str " Back to authentication info</a></p>");
     status := 404%N;
     headers := html_headers |}.

Definition flag_response (country base64 : jsstring) : Response :=
  {| body := flag_page country base64;
     status := 200%N;
     headers := html_headers |}.

(** [handleCountryFlag]: the route [/secure/:country]. *)
Definition handleCountryFlag {E : Engine} (country : jsstring) (env : Env)
  : Response :=
  let flagKey := country ++ str ".png" in
  match FLAGS env flagKey with
  | Rejects error => flag_error error
  | Missing => flag_missing country
  | Found (Throw error) => flag_error error
  | Found (Normal flagBlob) =>
      match blobToBase64 flagBlob with
      | Normal base64 => flag_response country base64
      | Throw error => flag_error error
      end
  end.

(** The pattern [/^\/secure\/([A-Z]{2})$/i] on a path: the capture. *)
Definition countryMatch (path : jsstring) : option jsstring :=
  if startsWith path (str "/secure/") then
    match substring path (List.length (str "/secure/")) with
    | [a; b] =>
        if is_ascii_letter a && is_ascii_letter b then Some [a; b] else None
    | _ => None
    end
  else None.

(** The response of the default route. *)
Definition not_found : Response :=
  {| body := str "Not Found. Try /secure";
     status := 404%N;
     headers := [] |}.

(** [fetch]: the dispatcher. *)
Definition fetch {E : Engine} (request : Request) (env : Env) : Response :=
  if eqb_str (pathname request) (str "/secure") then handleSecure request
  else
    match countryMatch (pathname request) with
    | Some code => handleCountryFlag (toUpperCase code) env
    | None => not_found
    end.

End Worker.

(** ** The vocabulary of the statements *)

Module Vocabulary.
Import JS Worker.

(** An engine for the closed examples, worded after V8 and workerd.  No
    theorem depends on the wording. *)
Definition sample_engine : Engine :=
  {| invalid_character_message :=
       str "atob() called with invalid base64-encoded data.";
     syntax_error_message :=
       fun text =>
         match text with
         | [] => str "Unexpected end of JSON input"
         | _ => str "Unexpected token in JSON"
         end;
     null_read_message :=
       fun property =>
         str "Cannot read properties of null (reading '" ++ property ++
         str "')" |}.

(** The request for [/secure] with a given cookie header. *)
Definition secure_request (header : string) : Request :=
  {| pathname := str "/secure"; cookie := Some (str header) |}.



Definition empty_record_token : string := "h.e30.s".

Definition script_token : string := "h.eyJlbWFpbCI6IjxzY3JpcHQ-In0.s".

(** The cookie header that carries a token and nothing else. *)
Definition credential (token : string) : string :=
  String.append "CF_Authorization=" token.

(** A store with one object, a few bytes under [US.png]. *)
Definition sample_blob : list byte := [x89; x50; x4e; x47; x0d; x0a; xff].

Definition sample_env : Env :=
  {| FLAGS :=
       fun key =>
         if eqb_str key (str "US.png") then Found (Normal sample_blob)
         else Missing |}.

(** A cookie pair carries the credential when, trimmed, it reads
    [CF_Authorization=value]; the value is what follows the sign. *)
Definition has_credential_key (pair : jsstring) : bool :=
  startsWith (trim pair) cookie_name.

Definition credential_value (pair : jsstring) : jsstring :=
  substring (trim pair) (List.length cookie_name).

(** No pair of the cookie header carries the credential; so it is when
    there is no header. *)
Definition lacks_credential (cookieHeader : option jsstring) : Prop :=
  match cookieHeader with
  | None => True
  | Some header =>
      Forall (fun pair => has_credential_key pair = false)
        (split header (chr ";"))
  end.

(** The middle segment as [decodeJWT] hands it to [atob]. *)
Definition url_safe_to_standard (payload : jsstring) : jsstring :=
  replace_all (replace_all payload (chr "-") (chr "+")) (chr "_") (chr "/").




(** What a browser gets back from the data of a [data:] URI: the bytes
    of the characters [atob] returns. *)
Fixpoint bytes_of_binary (binary : jsstring) : option (list byte) :=
  match binary with
  | [] => Some []
  | c :: rest =>
      match Byte.of_N c, bytes_of_binary rest with
      | Some b, Some bs => Some (b :: bs)
      | _, _ => None
      end
  end.

Definition decoded_bytes (base64 : jsstring) : option (list byte) :=
  match atob base64 with
  | Normal binary => bytes_of_binary binary
  | Throw _ => None
  end.

Definition is_byte (n : N) : Prop := (n < 256)%N.

(** The sextets [base64_encode] writes, and the padding after them. *)
Fixpoint sextets_of (bytes : list N) : list N :=
  match bytes with
  | [] => []
  | [a] => [a / 4; (a mod 4) * 16]
  | [a; b] => [a / 4; (a mod 4) * 16 + b / 16; (b mod 16) * 4]
  | a :: b :: c :: rest =>
      a / 4 :: (a mod 4) * 16 + b / 16 :: (b mod 16) * 4 + c / 64
      :: c mod 64 :: sextets_of rest
  end%N.

Fixpoint padding_of (bytes : list N) : jsstring :=
  match bytes with
  | [] => []
  | [_] => [equals_sign; equals_sign]
  | [_; _] => [equals_sign]
  | _ :: _ :: _ :: rest => padding_of rest
  end.

End Vocabulary.

(** ** The dispatcher with the flag of its pattern on every letter

    The pattern [/^\/secure\/([A-Z]{2})$/i] carries the flag [i]: it
    bears on the literal part too, so [/SECURE/us] matches as [/secure/us]
    does.  [Worker.countryMatch] compares the literal part as written;
    [countryMatch_i] is the pattern in full, and [fetch_i] the dispatcher
    over it.  The two dispatchers agree wherever the literal part is in
    lower case or the path is no match in any case. *)

Module Dispatcher.
Import JS Worker Vocabulary.

(** A character matches a character of the pattern under the flag when
    the two have one upper case; outside ASCII no character folds to an
    ASCII letter. *)
Definition matches_ignoring_case (s literal : jsstring) : bool :=
  eqb_str (toUpperCase s) (toUpperCase literal).

Definition countryMatch_i (path : jsstring) : option jsstring :=
  if matches_ignoring_case (firstn 8 path) (str "/secure/") then
    match skipn 8 path with
    | [a; b] =>
        if is_ascii_letter a && is_ascii_letter b then Some [a; b] else None
    | _ => None
    end
  else None.

(** [fetch], with the pattern in full. *)
Definition fetch_i {E : Engine} (request : Request) (env : Env) : Response :=
  if eqb_str (pathname request) (str "/secure") then handleSecure request
  else
    match countryMatch_i (pathname request) with
    | Some code => handleCountryFlag (toUpperCase code) env
    | None => not_found
    end.

Definition is_upper (c : code_unit) : bool := (65 <=? c)%N && (c <=? 90)%N.

(** The key [handleCountryFlag] reads. *)
Definition flagKey (country : jsstring) : jsstring := country ++ str ".png".

(** The characters of a base64 text: letters, digits, [+], [/], [=]. *)
Definition is_base64_unit (c : code_unit) : bool :=
  is_ascii_letter c || is_digit c || N.eqb c 43 || N.eqb c 47
  || N.eqb c equals_sign.

(** The payload segment an issuer writes for a text: base64 in the
    URL-safe alphabet, with the padding or, as tokens have it, without. *)
Definition base64url (padded : bool) (text : list N) : jsstring :=
  replace_all
    (replace_all
       (if padded then base64_encode text
        else map base64_char (sextets_of text))
       (chr "+") (chr "-"))
    (chr "/") (chr "_").

(** A token of three segments. *)
Definition token_of (header payload signature : jsstring) : jsstring :=
  header ++ chr "." :: payload ++ chr "." :: signature.

(** The page of a payload without email, country and time. *)
Definition unknown_page : jsstring :=
  renderHTML (str "Authentication Info")
    (claims_content (VStr (str "Unknown")) (VStr (str "Unknown"))
       (str "Unknown")).

(** A value of JSON that is neither [null] nor a record. *)
Definition is_scalar_or_array (v : value) : bool :=
  match v with
  | VNull | VObj _ => false
  | VBool _ | VNum _ | VStr _ | VArr _ => true
  end.

(** Sample stores: one whose reads are rejected, and the sample store
    with one more object under a key that is no flag key. *)
Definition failing_env : Env :=
  {| FLAGS := fun _ => Rejects (Error (str "bucket unavailable")) |}.

Definition sample_env_with_notes : Env :=
  {| FLAGS :=
       fun key =>
         if eqb_str key (str "notes.txt") then Found (Normal [x2a])
         else FLAGS sample_env key |}.




End Dispatcher.

(** ** Properties of the platform model *)

Module JSFacts.
Import JS Vocabulary.

(** Lists taken three elements at a time, as [base64_encode] does. *)
Lemma list_ind3 (A : Type) (P : list A -> Prop) :
  P [] ->
  (forall a, P [a]) ->
  (forall a b, P [a; b]) ->
  (forall a b c l, P l -> P (a :: b :: c :: l)) ->
  forall l, P l.
Proof.
  intros H0 H1 H2 H3.
  fix IH 1.
  intros [|a [|b [|c l]]];
    [exact H0 | apply H1 | apply H2 | apply H3; apply IH].
Qed.

Lemma startsWith_app (needle rest : jsstring) :
  startsWith (needle ++ rest) needle = true.
Proof.
  induction needle as [|c needle IH]; simpl; [reflexivity|].
  rewrite N.eqb_refl. exact IH.
Qed.

Lemma startsWith_inv (s needle : jsstring) :
  startsWith s needle = true -> exists rest, s = needle ++ rest.
Proof.
  revert s. induction needle as [|c needle IH]; intros s H.
  - exists s. reflexivity.
  - destruct s as [|d s]; simpl in H; [discriminate|].
    apply andb_true_iff in H. destruct H as [Hc Hs].
    apply N.eqb_eq in Hc. subst d.
    destruct (IH _ Hs) as [rest ->]. exists rest. reflexivity.
Qed.

Lemma includes_here (needle rest : jsstring) :
  includes (needle ++ rest) needle = true.
Proof.
  destruct (needle ++ rest) eqn:E; simpl; rewrite <- E;
    rewrite startsWith_app; reflexivity.
Qed.

Lemma includes_cons (c : code_unit) (s needle : jsstring) :
  includes s needle = true -> includes (c :: s) needle = true.
Proof.
  intros H. simpl. rewrite H. apply orb_true_r.
Qed.

Lemma includes_app_r (pre s needle : jsstring) :
  includes s needle = true -> includes (pre ++ s) needle = true.
Proof.
  intros H. induction pre as [|c pre IH]; simpl app; [exact H|].
  apply includes_cons. exact IH.
Qed.

Lemma includes_intro (pre needle post : jsstring) :
  includes (pre ++ needle ++ post) needle = true.
Proof. apply includes_app_r, includes_here. Qed.

Lemma includes_inv (s needle : jsstring) :
  includes s needle = true -> exists pre post, s = pre ++ needle ++ post.
Proof.
  induction s as [|c s IH]; simpl; intros H.
  - rewrite orb_false_r in H. apply startsWith_inv in H.
    destruct H as [rest ->]. exists [], rest. reflexivity.
  - apply orb_true_iff in H. destruct H as [H|H].
    + apply (startsWith_inv (c :: s)) in H. destruct H as [rest ->].
      exists [], rest. reflexivity.
    + destruct (IH H) as (pre & post & ->).
      exists (c :: pre), post. reflexivity.
Qed.

Lemma includes_app_l (s post needle : jsstring) :
  includes s needle = true -> includes (s ++ post) needle = true.
Proof.
  intros H. apply includes_inv in H. destruct H as (pre & rest & ->).
  rewrite <- !app_assoc. apply includes_intro.
Qed.

(** *** Base64: decoding what [base64_encode] wrote *)

Lemma base64_encode_sextets (bytes : list N) :
  base64_encode bytes = map base64_char (sextets_of bytes) ++ padding_of bytes.
Proof.
  induction bytes as [|a|a b|a b c rest IH] using list_ind3;
    try reflexivity.
  cbn [base64_encode sextets_of padding_of map app]. rewrite IH. reflexivity.
Qed.

Lemma base64_char_cases (x : N) :
  let c := base64_char x in
  (65 <= c <= 90 \/ 97 <= c <= 122 \/ 48 <= c <= 57 \/ c = 43 \/ c = 47)%N.
Proof.
  unfold base64_char.
  destruct (N.ltb_spec x 26); [lia|].
  destruct (N.ltb_spec x 52); [lia|].
  destruct (N.ltb_spec x 62); [lia|].
  destruct (N.eqb_spec x 62); lia.
Qed.

Lemma base64_char_not_padding (x : N) :
  N.eqb (base64_char x) equals_sign = false.
Proof.
  apply N.eqb_neq. unfold equals_sign.
  pose proof (base64_char_cases x) as H. cbv zeta in H. lia.
Qed.

Lemma base64_char_not_whitespace (x : N) :
  is_ascii_whitespace (base64_char x) = false.
Proof.
  pose proof (base64_char_cases x) as H. cbv zeta in H.
  unfold is_ascii_whitespace. cbn [existsb].
  repeat match goal with
         | |- context [N.eqb ?a ?b] =>
             destruct (N.eqb_spec a b); [lia|]
         end.
  reflexivity.
Qed.

Lemma base64_index_char (x : N) :
  (x < 64)%N -> base64_index (base64_char x) = Some x.
Proof.
  intros Hx. unfold base64_char.
  destruct (N.ltb_spec x 26).
  { unfold base64_index.
    destruct (N.leb_spec 65 (65 + x)); [|lia].
    destruct (N.leb_spec (65 + x) 90); [|lia].
    cbn [andb]. f_equal. lia. }
  destruct (N.ltb_spec x 52).
  { unfold base64_index.
    destruct (N.leb_spec (97 + (x - 26)) 90); [lia|].
    rewrite andb_false_r.
    destruct (N.leb_spec 97 (97 + (x - 26))); [|lia].
    destruct (N.leb_spec (97 + (x - 26)) 122); [|lia].
    cbn [andb]. f_equal. lia. }
  destruct (N.ltb_spec x 62).
  { unfold base64_index.
    destruct (N.leb_spec 65 (48 + (x - 52))); [lia|].
    destruct (N.leb_spec 97 (48 + (x - 52))); [lia|].
    destruct (N.leb_spec 48 (48 + (x - 52))); [|lia].
    destruct (N.leb_spec (48 + (x - 52)) 57); [|lia].
    cbn [andb]. f_equal. lia. }
  destruct (N.eqb_spec x 62); [subst; reflexivity|].
  assert (x = 63%N) by lia. subst. reflexivity.
Qed.

Lemma sextets_of_bound (bytes : list N) :
  Forall is_byte bytes -> Forall (fun x => (x < 64)%N) (sextets_of bytes).
Proof.
  unfold is_byte.
  induction bytes as [|a|a b|a b c rest IH] using list_ind3; intros H;
    cbn [sextets_of].
  - constructor.
  - inversion_clear H. repeat constructor.
    + apply N.Div0.div_lt_upper_bound; lia.
    + pose proof (N.mod_upper_bound a 4). lia.
  - inversion_clear H as [|? ? Ha H']. inversion_clear H' as [|? ? Hb _].
    pose proof (N.mod_upper_bound a 4). pose proof (N.mod_upper_bound b 16).
    assert (b / 16 < 16)%N by (apply N.Div0.div_lt_upper_bound; lia).
    repeat constructor; try lia.
    apply N.Div0.div_lt_upper_bound; lia.
  - inversion_clear H as [|? ? Ha H']. inversion_clear H' as [|? ? Hb H''].
    inversion_clear H'' as [|? ? Hc Hrest].
    pose proof (N.mod_upper_bound a 4). pose proof (N.mod_upper_bound b 16).
    pose proof (N.mod_upper_bound c 64).
    assert (a / 4 < 64)%N by (apply N.Div0.div_lt_upper_bound; lia).
    assert (b / 16 < 16)%N by (apply N.Div0.div_lt_upper_bound; lia).
    assert (c / 64 < 4)%N by (apply N.Div0.div_lt_upper_bound; lia).
    repeat (constructor; [lia|]). auto.
Qed.

Lemma sextets_chars (xs : list N) :
  Forall (fun x => (x < 64)%N) xs -> sextets (map base64_char xs) = Some xs.
Proof.
  induction 1 as [|x xs Hx _ IH]; cbn [map sextets]; [reflexivity|].
  rewrite (base64_index_char x Hx), IH. reflexivity.
Qed.

Lemma group_buffer (a b c : N) :
  ((((a / 4) * 64 + ((a mod 4) * 16 + b / 16)) * 64
    + ((b mod 16) * 4 + c / 64)) * 64 + c mod 64
   = a * 65536 + b * 256 + c)%N.
Proof.
  pose proof (N.div_mod a 4). pose proof (N.div_mod b 16).
  pose proof (N.div_mod c 64). lia.
Qed.

Lemma buffer_bytes (a b c : N) :
  is_byte a -> is_byte b -> is_byte c ->
  ((a * 65536 + b * 256 + c) / 65536 = a /\
   ((a * 65536 + b * 256 + c) / 256) mod 256 = b /\
   (a * 65536 + b * 256 + c) mod 256 = c)%N.
Proof.
  unfold is_byte. intros Ha Hb Hc. repeat split.
  - symmetry. apply (N.div_unique _ _ _ (b * 256 + c)); lia.
  - assert (E : ((a * 65536 + b * 256 + c) / 256 = a * 256 + b)%N).
    { symmetry. apply (N.div_unique _ _ _ c); lia. }
    rewrite E. symmetry. apply (N.mod_unique _ _ a); lia.
  - symmetry. apply (N.mod_unique _ _ (a * 256 + b)); lia.
Qed.

Lemma decode_sextets_of (bytes : list N) :
  Forall is_byte bytes -> base64_decode (sextets_of bytes) = bytes.
Proof.
  induction bytes as [|a|a b|a b c rest IH] using list_ind3; intros H.
  - reflexivity.
  - inversion_clear H as [|? ? Ha _]. unfold is_byte in Ha.
    cbn [sextets_of base64_decode]. f_equal.
    pose proof (N.div_mod a 4). pose proof (N.mod_upper_bound a 4).
    symmetry. apply (N.div_unique _ _ _ 0); lia.
  - inversion_clear H as [|? ? Ha H']. inversion_clear H' as [|? ? Hb _].
    unfold is_byte in Ha, Hb. cbn [sextets_of base64_decode].
    pose proof (N.div_mod a 4). pose proof (N.mod_upper_bound a 4).
    pose proof (N.div_mod b 16). pose proof (N.mod_upper_bound b 16).
    assert (E : ((((a / 4) * 64 + ((a mod 4) * 16 + b / 16)) * 64
                  + (b mod 16) * 4) / 4 = a * 256 + b)%N).
    { symmetry. apply (N.div_unique _ _ _ 0); lia. }
    cbv zeta. rewrite E. f_equal; [|f_equal].
    + symmetry. apply (N.div_unique _ _ _ b); lia.
    + symmetry. apply (N.mod_unique _ _ a); lia.
  - inversion_clear H as [|? ? Ha H']. inversion_clear H' as [|? ? Hb H''].
    inversion_clear H'' as [|? ? Hc Hrest].
    cbn [sextets_of base64_decode]. cbv zeta. rewrite group_buffer.
    destruct (buffer_bytes a b c Ha Hb Hc) as (Ea & Eb & Ec).
    rewrite Ea, Eb, Ec, (IH Hrest). reflexivity.
Qed.

Lemma filter_chars (xs : list N) (pad : jsstring) :
  Forall (fun c => c = equals_sign) pad ->
  filter (fun c => negb (is_ascii_whitespace c))
    (map base64_char xs ++ pad) = map base64_char xs ++ pad.
Proof.
  intros Hpad. induction xs as [|x xs IH]; cbn [map app filter].
  - induction Hpad as [|c pad -> _ IH]; cbn [filter]; [reflexivity|].
    change (is_ascii_whitespace equals_sign) with false. cbn [negb].
    rewrite IH. reflexivity.
  - rewrite base64_char_not_whitespace. cbn [negb]. rewrite IH. reflexivity.
Qed.

Lemma padding_of_equals (bytes : list N) :
  Forall (fun c => c = equals_sign) (padding_of bytes).
Proof.
  induction bytes as [|a|a b|a b c rest IH] using list_ind3;
    cbn [padding_of]; auto.
Qed.

Lemma padding_of_cases (bytes : list N) :
  padding_of bytes = [] \/ padding_of bytes = [equals_sign] \/
  padding_of bytes = [equals_sign; equals_sign].
Proof.
  induction bytes as [|a|a b|a b c rest IH] using list_ind3;
    cbn [padding_of]; auto.
Qed.

Lemma length_encode (bytes : list N) :
  Nat.modulo (List.length (base64_encode bytes)) 4 = 0.
Proof.
  induction bytes as [|a|a b|a b c rest IH] using list_ind3;
    try reflexivity.
  cbn [base64_encode List.length].
  change (S (S (S (S ?n)))) with (4 + n).
  replace (4 + List.length (base64_encode rest))
    with (List.length (base64_encode rest) + 1 * 4) by lia.
  rewrite Nat.Div0.mod_add. exact IH.
Qed.

Lemma length_sextets_of (bytes : list N) :
  Nat.modulo (List.length (sextets_of bytes)) 4 <> 1.
Proof.
  induction bytes as [|a|a b|a b c rest IH] using list_ind3;
    try (cbn; lia).
  cbn [sextets_of List.length].
  replace (S (S (S (S (List.length (sextets_of rest)))))) 
    with (List.length (sextets_of rest) + 1 * 4) by lia.
  rewrite Nat.Div0.mod_add. exact IH.
Qed.

Lemma strip_padding_encode (bytes : list N) :
  strip_padding (base64_encode bytes) = map base64_char (sextets_of bytes).
Proof.
  rewrite base64_encode_sextets.
  assert (Hlast : forall xs : list N,
             strip_padding (map base64_char xs) = map base64_char xs).
  { intros xs. unfold strip_padding. rewrite <- map_rev.
    destruct (rev xs) as [|x [|y r]]; cbn [map];
      rewrite ?base64_char_not_padding; reflexivity. }
  assert (Hone : forall xs : list N,
             strip_padding (map base64_char xs ++ [equals_sign])
             = map base64_char xs).
  { intros xs. unfold strip_padding. rewrite rev_app_distr. cbn [rev app].
    rewrite <- map_rev.
    destruct (rev xs) as [|x r] eqn:E; cbn [map].
    - apply (f_equal (@rev N)) in E. rewrite rev_involutive in E.
      subst xs. reflexivity.
    - rewrite N.eqb_refl, base64_char_not_padding.
      change (rev (map base64_char (x :: r)) = map base64_char xs).
      rewrite <- E, map_rev, rev_involutive. reflexivity. }
  assert (Htwo : forall xs : list N,
             strip_padding (map base64_char xs ++ [equals_sign; equals_sign])
             = map base64_char xs).
  { intros xs. unfold strip_padding. rewrite rev_app_distr. cbn [rev app].
    rewrite !N.eqb_refl, rev_involutive. reflexivity. }
  destruct (padding_of_cases bytes) as [E|[E|E]]; rewrite E.
  - rewrite app_nil_r. apply Hlast.
  - apply Hone.
  - apply Htwo.
Qed.

Theorem atob_base64_encode (bytes : list N) :
  Forall is_byte bytes -> atob (base64_encode bytes) = Normal bytes.
Proof.
  intros H.
  assert (F : filter (fun c => negb (is_ascii_whitespace c))
                (base64_encode bytes) = base64_encode bytes).
  { rewrite base64_encode_sextets.
    apply filter_chars, padding_of_equals. }
  unfold atob. cbv zeta. rewrite !F.
  rewrite length_encode. cbn [Nat.eqb].
  rewrite strip_padding_encode, length_map.
  destruct (Nat.eqb_spec (Nat.modulo (List.length (sextets_of bytes)) 4) 1)
    as [E|_]; [destruct (length_sextets_of bytes E)|].
  rewrite (sextets_chars _ (sextets_of_bound _ H)).
  rewrite (decode_sextets_of _ H). reflexivity.
Qed.

(** *** The platform model at known values *)

Example split_cookies :
  split (str "a=1; b=2;") (chr ";") = [str "a=1"; str " b=2"; []].
Proof. reflexivity. Qed.

Example trim_pair : trim (str "  b=2 ") = str "b=2".
Proof. reflexivity. Qed.

Example btoa_hello : btoa (str "hello") = Normal (str "aGVsbG8=").
Proof. reflexivity. Qed.

Example atob_padded : atob (str "aGVsbA==") = Normal (str "hell").
Proof. reflexivity. Qed.

Example atob_unpadded : atob (str "aGVsbA") = Normal (str "hell").
Proof. reflexivity. Qed.

Example atob_one_sign_short :
  atob (str "aGVsbA=") = Throw InvalidCharacterError.
Proof. reflexivity. Qed.

Example atob_url_safe_alphabet :
  atob (str "PHNjcmlwdD4-") = Throw InvalidCharacterError.
Proof. reflexivity. Qed.

Example JSON_parse_members :
  JSON_parse (str "{ " ++ dquote ++ str "iat" ++ dquote ++ str " : 1.5e3 }")
  = Normal (VObj [(str "iat", VNum (Int 1500))]).
Proof. reflexivity. Qed.

Example JSON_parse_null : JSON_parse (str "null") = Normal VNull.
Proof. reflexivity. Qed.

Example JSON_parse_trailing_comma :
  JSON_parse (str "[1,]") = Throw (SyntaxError (str "[1,]")).
Proof. reflexivity. Qed.

Example JSON_parse_leading_zero :
  JSON_parse (str "01") = Throw (SyntaxError (str "01")).
Proof. reflexivity. Qed.

Example toUTCString_epoch :
  toUTCString (Date_new (Int 0)) = str "Thu, 01 Jan 1970 00:00:00 GMT".
Proof. reflexivity. Qed.

Example toUTCString_leap_day :
  toUTCString (Date_new (multiply (Int 951782400) 1000))
  = str "Tue, 29 Feb 2000 00:00:00 GMT".
Proof. reflexivity. Qed.

Example toUTCString_2025 :
  toUTCString (Date_new (multiply (Int 1759444215) 1000))
  = str "Thu, 02 Oct 2025 22:30:15 GMT".
Proof. reflexivity. Qed.

Example toUTCString_out_of_range :
  toUTCString (Date_new (multiply (Int 8640000000001) 1000))
  = str "Invalid Date".
Proof. reflexivity. Qed.

Example number_to_string_exponent :
  number_to_string (decimal_value 15 (-8)) = str "1.5e-7".
Proof. reflexivity. Qed.

(** *** The year of a day *)

Lemma YearFromDay_spec (day : Z) :
  (DayFromYear (YearFromDay day) <= day
   < DayFromYear (YearFromDay day + 1))%Z.
Proof.
  unfold YearFromDay. cbv zeta.
  destruct (Z.leb_spec (DayFromYear (1970 + day * 400 / 146097 + 1)) day)
    as [H1|H1].
  - split; [exact H1|]. unfold DayFromYear in *.
    Z.div_mod_to_equations; lia.
  - destruct (Z.leb_spec (DayFromYear (1970 + day * 400 / 146097)) day)
      as [H2|H2].
    + split; [exact H2|exact H1].
    + replace (1970 + day * 400 / 146097 - 1 + 1)%Z
        with (1970 + day * 400 / 146097)%Z by lia.
      split; [|exact H2]. unfold DayFromYear in *.
      Z.div_mod_to_equations; lia.
Qed.

End JSFacts.

(** ** Properties of the worker *)

Module WorkerFacts.
Import JS Worker Vocabulary JSFacts.

(** *** The platform throws one kind of exception each *)

Lemma atob_throws (data : jsstring) (e : exn) :
  atob data = Throw e -> e = InvalidCharacterError.
Proof.
  unfold atob. cbv zeta.
  repeat match goal with
         | |- context [if ?b then _ else _] => destruct b
         | |- context [match ?o with Some _ => _ | None => _ end] =>
             destruct o
         end; congruence.
Qed.

Lemma JSON_parse_throws (text : jsstring) (e : exn) :
  JSON_parse text = Throw e -> e = SyntaxError text.
Proof.
  unfold JSON_parse.
  destruct (lex LStart [] text) as [toks|]; [|congruence].
  destruct (parse_tokens (SValue []) toks); congruence.
Qed.

(** *** The cookie loop *)

Lemma has_credential_key_spec (pair : jsstring) :
  has_credential_key pair = true <->
  exists value, trim pair = str "CF_Authorization" ++ [chr "="] ++ value.
Proof.
  unfold has_credential_key. split.
  - intros H. apply startsWith_inv in H. destruct H as [value H].
    exists value. exact H.
  - intros [value H]. rewrite H.
    apply (startsWith_app cookie_name value).
Qed.

Lemma credential_value_spec (pair value : jsstring) :
  trim pair = str "CF_Authorization" ++ [chr "="] ++ value ->
  credential_value pair = value.
Proof. unfold credential_value. intros ->. reflexivity. Qed.

Lemma find_token_none (cookies : list jsstring) :
  Forall (fun pair => has_credential_key pair = false) cookies ->
  find_token cookies = None.
Proof.
  induction 1 as [|pair cookies Hpair _ IH]; cbn [find_token];
    [reflexivity|].
  unfold has_credential_key in Hpair. rewrite Hpair. exact IH.
Qed.

Lemma find_token_first (before after : list jsstring) (pair : jsstring) :
  Forall (fun p => has_credential_key p = false) before ->
  has_credential_key pair = true ->
  find_token (before ++ pair :: after) = Some (credential_value pair).
Proof.
  intros Hbefore Hpair.
  induction Hbefore as [|p before Hp _ IH]; cbn [app find_token].
  - unfold has_credential_key in Hpair. rewrite Hpair. reflexivity.
  - unfold has_credential_key in Hp. rewrite Hp. exact IH.
Qed.

Lemma jwtToken_of_lacking (cookieHeader : option jsstring) :
  lacks_credential cookieHeader -> jwtToken_of cookieHeader = None.
Proof.
  destruct cookieHeader as [[|c header]|]; cbn [lacks_credential jwtToken_of];
    intros H; try reflexivity.
  apply find_token_none. exact H.
Qed.

(** *** [decodeJWT] *)

Lemma split_nonempty_token (h p s : jsstring) :
  split [] (chr ".") <> [h; p; s].
Proof. discriminate. Qed.

Lemma decodeJWT_segments (jwt h p s : jsstring) :
  split jwt (chr ".") = [h; p; s] ->
  decodeJWT jwt =
  (jsonPayload <~ atob (url_safe_to_standard p) ;; JSON_parse jsonPayload).
Proof. unfold decodeJWT. intros ->. reflexivity. Qed.

Lemma decodeJWT_malformed (jwt : jsstring) :
  List.length (split jwt (chr ".")) <> 3 ->
  decodeJWT jwt = Throw (Error (str "Invalid JWT format")).
Proof.
  intros H. unfold decodeJWT.
  destruct (Nat.eqb_spec (List.length (split jwt (chr "."))) 3) as [E|_];
    [contradiction|reflexivity].
Qed.

Lemma decodeJWT_normal_nonempty (jwt : jsstring) (v : value) :
  decodeJWT jwt = Normal v -> jwt <> [].
Proof. intros H ->. discriminate H. Qed.

Lemma secure_response_nonempty {E : Engine} (token : jsstring) :
  token <> [] ->
  secure_response (Some token) =
  match claims_page token with
  | Normal html => claims_response html
  | Throw error => jwt_error error
  end.
Proof. destruct token; [congruence|reflexivity]. Qed.

(** *** [blobToBase64] *)

Lemma binary_of_blob (blob : list byte) (start : jsstring) :
  fold_left (fun binary b => binary ++ [Byte.to_N b]) blob start
  = start ++ map Byte.to_N blob.
Proof.
  revert start. induction blob as [|b blob IH]; intros start; cbn.
  - rewrite app_nil_r. reflexivity.
  - rewrite IH, <- app_assoc. reflexivity.
Qed.

Lemma blob_is_bytes (blob : list byte) : Forall is_byte (map Byte.to_N blob).
Proof.
  induction blob as [|b blob IH]; constructor; [|exact IH].
  unfold is_byte. pose proof (Byte.to_N_bounded b). lia.
Qed.

Lemma blobToBase64_normal (blob : list byte) :
  blobToBase64 blob = Normal (base64_encode (map Byte.to_N blob)).
Proof.
  unfold blobToBase64, btoa. rewrite binary_of_blob. cbn [app].
  assert (H : forallb (fun c => (c <=? 255)%N) (map Byte.to_N blob) = true).
  { apply forallb_forall. intros c Hc. apply in_map_iff in Hc.
    destruct Hc as (b & <- & _). apply N.leb_le, Byte.to_N_bounded. }
  rewrite H. reflexivity.
Qed.

Lemma bytes_of_binary_blob (blob : list byte) :
  bytes_of_binary (map Byte.to_N blob) = Some blob.
Proof.
  induction blob as [|b blob IH]; cbn [map bytes_of_binary]; [reflexivity|].
  rewrite Byte.of_to_N, IH. reflexivity.
Qed.

(** *** The page shell *)

Lemma includes_line (n : nat) (text needle : jsstring) :
  includes text needle = true -> includes (line n text) needle = true.
Proof.
  intros H. unfold line. apply includes_app_r, includes_app_l. exact H.
Qed.

Lemma renderHTML_content (title content needle : jsstring) :
  includes content needle = true ->
  includes (renderHTML title content) needle = true.
Proof.
  intros H. unfold renderHTML.
  repeat first [ apply includes_app_l, includes_line; exact H
               | apply includes_app_r ].
Qed.

Lemma includes_prefix (s needle : jsstring) :
  startsWith s needle = true -> includes s needle = true.
Proof. intros H. destruct s; simpl; rewrite H; reflexivity. Qed.

Lemma includes_refl (s : jsstring) : includes s s = true.
Proof.
  rewrite <- (app_nil_r s) at 1. apply includes_here.
Qed.

Lemma includes_here3 (a b c rest : jsstring) :
  includes (a ++ b ++ c ++ rest) (a ++ b ++ c) = true.
Proof.
  replace (a ++ b ++ c ++ rest) with ((a ++ b ++ c) ++ rest)
    by (rewrite <- !app_assoc; reflexivity).
  apply includes_here.
Qed.

Lemma flag_page_embeds (country base64 : jsstring) :
  includes (flag_page country base64)
    (str "data:image/png;base64," ++ base64 ++ dquote) = true.
Proof.
  unfold flag_page.
  repeat first
    [ apply includes_app_l, includes_line;
      do 2 apply includes_app_r; apply includes_here3
    | apply includes_app_r ].
Qed.

(** *** The claims page *)

Lemma claims_page_object (token : jsstring)
  (members : list (jsstring * value)) :
  decodeJWT token = Normal (VObj members) ->
  claims_page token =
  Normal (renderHTML (str "Authentication Info")
            (claims_content
               (or_unknown (lookup members (str "email")))
               (or_unknown (lookup members (str "country")))
               (issued_at (lookup members (str "iat"))))).
Proof. unfold claims_page. intros ->. reflexivity. Qed.

Lemma handleSecure_object {E : Engine} (request : Request)
  (token : jsstring) (members : list (jsstring * value)) :
  jwtToken_of (cookie request) = Some token ->
  decodeJWT token = Normal (VObj members) ->
  handleSecure request =
  claims_response
    (renderHTML (str "Authentication Info")
       (claims_content
          (or_unknown (lookup members (str "email")))
          (or_unknown (lookup members (str "country")))
          (issued_at (lookup members (str "iat"))))).
Proof.
  intros Htoken Hdecode. unfold handleSecure. rewrite Htoken.
  rewrite (secure_response_nonempty _ (decodeJWT_normal_nonempty _ _ Hdecode)).
  rewrite (claims_page_object _ _ Hdecode). reflexivity.
Qed.

(** The email is written as it is in the payload. *)
Lemma claims_content_email (email : jsstring) (country : value)
  (timestamp : jsstring) :
  includes (claims_content (VStr email) country timestamp)
    (email ++ str " authenticated at ") = true.
Proof.
  unfold claims_content. cbn [to_string].
  apply includes_app_r.
  rewrite <- !app_assoc.
  rewrite (app_assoc email (str " authenticated at ")).
  apply includes_here.
Qed.



(** The email of the payload is written into the page as it is. *)
Lemma email_written_as_is {E : Engine} (request : Request)
  (token email : jsstring) (members : list (jsstring * value)) :
  jwtToken_of (cookie request) = Some token ->
  decodeJWT token = Normal (VObj members) ->
  lookup members (str "email") = Some (VStr email) ->
  email <> [] ->
  includes (body (handleSecure request))
    (email ++ str " authenticated at ") = true.
Proof.
  intros Htoken Hdecode Hemail Hne.
  rewrite (handleSecure_object _ _ _ Htoken Hdecode), Hemail.
  cbn [body claims_response]. apply renderHTML_content.
  destruct email as [|c email]; [congruence|].
  exact (claims_content_email (c :: email) _ _).
Qed.

(** A payload that is JSON but no record is not rejected: [null] fails
    at the first property read, a number reads as a record without
    members. *)
Example null_payload_is_caught {E : Engine} :
  handleSecure (secure_request "CF_Authorization=h.bnVsbA.s")
  = jwt_error (TypeError (str "email")).
Proof. reflexivity. Qed.

Example number_payload_renders_unknown {E : Engine} :
  JSON_parse (str "5") = Normal (VNum (Int 5)) /\
  handleSecure (secure_request "CF_Authorization=h.NQ.s")
  = handleSecure (secure_request (credential empty_record_token)).
Proof. split; reflexivity. Qed.

(** *** The routes *)

Lemma two_letter_route {E : Engine} (env : Env) (c : option jsstring)
  (a b : code_unit) :
  is_ascii_letter a = true ->
  is_ascii_letter b = true ->
  fetch {| pathname := str "/secure/" ++ [a; b]; cookie := c |} env
  = handleCountryFlag [upper_unit a; upper_unit b] env.
Proof.
  intros Ha Hb. unfold fetch, countryMatch. cbn [pathname].
  change (eqb_str (str "/secure/" ++ [a; b]) (str "/secure")) with false.
  change (startsWith (str "/secure/" ++ [a; b]) (str "/secure/")) with true.
  change (substring (str "/secure/" ++ [a; b])
            (List.length (str "/secure/"))) with [a; b].
  cbv iota. rewrite Ha, Hb. reflexivity.
Qed.

Lemma unmatched_route {E : Engine} (request : Request) (env : Env) :
  eqb_str (pathname request) (str "/secure") = false ->
  countryMatch (pathname request) = None ->
  fetch request env = not_found.
Proof. unfold fetch. intros -> ->. reflexivity. Qed.

(** *** Which responses are pages of the shell *)

Lemma claims_page_shell (token html : jsstring) :
  claims_page token = Normal html ->
  exists content, html = renderHTML (str "Authentication Info") content.
Proof.
  unfold claims_page.
  destruct (decodeJWT token) as [payload|e]; cbn [bind]; [|discriminate].
  destruct (get payload (str "email")) as [x|e]; cbn [bind];
    [|discriminate].
  destruct (get payload (str "country")) as [y|e]; cbn [bind];
    [|discriminate].
  destruct (get payload (str "iat")) as [z|e]; cbn [bind]; [|discriminate].
  intros [= <-]. eexists. reflexivity.
Qed.

Lemma handleSecure_shell {E : Engine} (request : Request) :
  exists title content,
    body (handleSecure request) = renderHTML title content.
Proof.
  unfold handleSecure, secure_response.
  destruct (jwtToken_of (cookie request)) as [[|c token]|];
    try (eexists; eexists; reflexivity).
  destruct (claims_page (c :: token)) as [html|e] eqn:H.
  - destruct (claims_page_shell _ _ H) as [content ->].
    eexists; eexists; reflexivity.
  - eexists; eexists; reflexivity.
Qed.

Lemma handleCountryFlag_error_shell {E : Engine}
  (country : jsstring) (env : Env) :
  status (handleCountryFlag country env) <> 200%N ->
  exists title content,
    body (handleCountryFlag country env) = renderHTML title content.
Proof.
  unfold handleCountryFlag. cbv zeta.
  destruct (FLAGS env (country ++ str ".png")) as [e| |[blob|e]];
    try (intros _; eexists; eexists; reflexivity).
  rewrite blobToBase64_normal. intros H. destruct H. reflexivity.
Qed.

End WorkerFacts.

(** ** The claims of the specification *)

Module Claims.
Import JS Worker Vocabulary JSFacts WorkerFacts.

Section TokenRenderer.
Context {E : Engine}.

(** C3.  A request whose cookie header has no pair with the credential
    key, or that has no cookie header, gets the Unauthenticated response:
    status 401 and the page that asks to authenticate, whatever other
    cookies it carries. *)
Theorem no_credential_unauthenticated (request : Request) :
  lacks_credential (cookie request) ->
  handleSecure request = unauthenticated /\
  status (handleSecure request) = 401%N.
Proof.
  intros H. unfold handleSecure.
  rewrite (jwtToken_of_lacking _ H). split; reflexivity.
Qed.

(** C9.  When several pairs of the cookie header have the credential key,
    the token is the value of the first of them from the left, and the
    response is the one for that token: the pairs after it play no part. *)
Theorem first_credential_wins
  (request : Request) (header : jsstring)
  (before after : list jsstring) (pair : jsstring) :
  cookie request = Some header ->
  split header (chr ";") = before ++ pair :: after ->
  Forall (fun p => has_credential_key p = false) before ->
  has_credential_key pair = true ->
  jwtToken_of (cookie request) = Some (credential_value pair) /\
  handleSecure request = secure_response (Some (credential_value pair)).
Proof.
  intros Hcookie Hsplit Hbefore Hpair.
  assert (Htoken : jwtToken_of (cookie request)
                   = Some (credential_value pair)).
  { rewrite Hcookie. destruct header as [|c header].
    - destruct before as [|p before]; cbn in Hsplit.
      + injection Hsplit as <- _. discriminate Hpair.
      + injection Hsplit as _ Hrest. destruct before; discriminate Hrest.
    - cbn [jwtToken_of]. rewrite Hsplit.
      apply find_token_first; assumption. }
  split; [exact Htoken|]. unfold handleSecure. rewrite Htoken. reflexivity.
Qed.

(** C10.  Two tokens of three segments with the same middle segment get
    the same response: the header and the signature segments have no
    influence on it. *)
Theorem header_and_signature_ignored
  (request1 request2 : Request) (token1 token2 : jsstring)
  (h1 s1 h2 s2 payload : jsstring) :
  jwtToken_of (cookie request1) = Some token1 ->
  jwtToken_of (cookie request2) = Some token2 ->
  split token1 (chr ".") = [h1; payload; s1] ->
  split token2 (chr ".") = [h2; payload; s2] ->
  handleSecure request1 = handleSecure request2.
Proof.
  intros H1 H2 S1 S2. unfold handleSecure. rewrite H1, H2.
  assert (N1 : token1 <> []) by (intros ->; discriminate S1).
  assert (N2 : token2 <> []) by (intros ->; discriminate S2).
  rewrite !secure_response_nonempty by assumption.
  unfold claims_page.
  rewrite (decodeJWT_segments _ _ _ _ S1), (decodeJWT_segments _ _ _ _ S2).
  reflexivity.
Qed.

(** C4, amended.  A token that is not empty and that the dots do not cut
    into exactly three segments fails with the malformed-token error: the
    handler catches [Error('Invalid JWT format')] and answers with status
    500 and the error page of that message, never another one. *)
Theorem malformed_token_error (request : Request) (token : jsstring) :
  jwtToken_of (cookie request) = Some token ->
  token <> [] ->
  List.length (split token (chr ".")) <> 3 ->
  claims_page token = Throw (Error (str "Invalid JWT format")) /\
  handleSecure request = jwt_error (Error (str "Invalid JWT format")) /\
  status (handleSecure request) = 500%N.
Proof.
  intros Htoken Hne Hlen.
  assert (Hpage : claims_page token
                  = Throw (Error (str "Invalid JWT format"))).
  { unfold claims_page. rewrite (decodeJWT_malformed _ Hlen). reflexivity. }
  unfold handleSecure.
  rewrite Htoken, (secure_response_nonempty _ Hne), Hpage.
  repeat split; reflexivity.
Qed.



(** C1, on the code.  The email of the payload reaches the page as it is:
    a token whose payload is the record of the one member
    [email: <script>] gives a page with the tag [<script>] in it. *)
Theorem script_tag_reaches_page :
  decodeJWT (str script_token)
  = Normal (VObj [(str "email", VStr (str "<script>"))]) /\
  includes
    (body (handleSecure (secure_request (credential script_token))))
    (str "<p><script> authenticated at ") = true.
Proof. split; vm_compute; reflexivity. Qed.

End TokenRenderer.

Section Routes.
Context {E : Engine}.

(** C2, on the code.  The response to a path that no route matches is the
    bare text [Not Found. Try /secure] with no header: it is no page of
    the shell [renderHTML] that every other response is written in. *)
Theorem unknown_route_is_plain_text (env : Env) (c : option jsstring) :
  let response := fetch {| pathname := str "/nope"; cookie := c |} env in
  response = not_found /\
  body response = str "Not Found. Try /secure" /\
  headers response = [] /\
  forall title content, body response <> renderHTML title content.
Proof.
  cbv zeta. repeat split.
  intros title content H.
  apply (f_equal (fun s => hd 0%N s)) in H. discriminate H.
Qed.


(** C8.  When the store holds the blob [B] under [CODE.png], the page for
    that code embeds, after [data:image/png;base64,] and up to the closing
    quote, a base64 text that decodes back to exactly the bytes of [B]. *)
Theorem flag_round_trip (env : Env) (country : jsstring) (blob : list byte) :
  FLAGS env (country ++ str ".png") = Found (Normal blob) ->
  exists base64,
    handleCountryFlag country env = flag_response country base64 /\
    includes (body (handleCountryFlag country env))
      (str "data:image/png;base64," ++ base64 ++ dquote) = true /\
    atob base64 = Normal (map Byte.to_N blob) /\
    decoded_bytes base64 = Some blob.
Proof.
  intros Hget. exists (base64_encode (map Byte.to_N blob)).
  assert (Hresponse : handleCountryFlag country env
            = flag_response country (base64_encode (map Byte.to_N blob))).
  { unfold handleCountryFlag. cbv zeta.
    rewrite Hget, blobToBase64_normal. reflexivity. }
  assert (Hatob : atob (base64_encode (map Byte.to_N blob))
                  = Normal (map Byte.to_N blob)).
  { apply atob_base64_encode, blob_is_bytes. }
  rewrite Hresponse. repeat split.
  - apply flag_page_embeds.
  - exact Hatob.
  - unfold decoded_bytes. rewrite Hatob. apply bytes_of_binary_blob.
Qed.

End Routes.

(** *** The claims at concrete requests *)

(** C3 at a header of two other cookies. *)
Lemma no_credential_unauthenticated_witness :
  lacks_credential (cookie (secure_request "theme=dark; session=41")) /\
  handleSecure (E := sample_engine)
    (secure_request "theme=dark; session=41") = unauthenticated /\
  status (handleSecure (E := sample_engine)
            (secure_request "theme=dark; session=41")) = 401%N.
Proof.
  assert (H : lacks_credential
                (cookie (secure_request "theme=dark; session=41")))
    by (vm_compute; repeat constructor).
  split; [exact H|].
  exact (@no_credential_unauthenticated sample_engine _ H).
Defined.

(** C9 at a header with two credentials after another cookie. *)
Lemma first_credential_wins_witness :
  let header :=
    "theme=dark; CF_Authorization=a.b.c; CF_Authorization=x.y.z"%string in
  split (str header) (chr ";")
  = [str "theme=dark"]
    ++ str " CF_Authorization=a.b.c" :: [str " CF_Authorization=x.y.z"] /\
  jwtToken_of (cookie (secure_request header)) = Some (str "a.b.c") /\
  handleSecure (E := sample_engine) (secure_request header)
  = secure_response (E := sample_engine) (Some (str "a.b.c")).
Proof.
  cbv zeta. split; [reflexivity|].
  apply (@first_credential_wins sample_engine
           (secure_request
              "theme=dark; CF_Authorization=a.b.c; CF_Authorization=x.y.z")
           (str "theme=dark; CF_Authorization=a.b.c; CF_Authorization=x.y.z")
           [str "theme=dark"] [str " CF_Authorization=x.y.z"]
           (str " CF_Authorization=a.b.c")).
  - reflexivity.
  - reflexivity.
  - repeat constructor.
  - reflexivity.
Defined.

(** C10 at two tokens around the payload segment [e30]. *)
Lemma header_and_signature_ignored_witness :
  handleSecure (E := sample_engine)
    (secure_request "CF_Authorization=h1.e30.s1")
  = handleSecure (E := sample_engine)
      (secure_request "CF_Authorization=other.e30.signature").
Proof.
  apply (@header_and_signature_ignored sample_engine
           (secure_request "CF_Authorization=h1.e30.s1")
           (secure_request "CF_Authorization=other.e30.signature")
           (str "h1.e30.s1") (str "other.e30.signature")
           (str "h1") (str "s1") (str "other") (str "signature")
           (str "e30")); reflexivity.
Defined.

(** C4, amended, at a token of two segments. *)
Lemma malformed_token_error_witness :
  List.length (split (str "header.payload") (chr ".")) = 2 /\
  claims_page (str "header.payload")
  = Throw (Error (str "Invalid JWT format")) /\
  handleSecure (E := sample_engine)
    (secure_request "CF_Authorization=header.payload")
  = jwt_error (E := sample_engine) (Error (str "Invalid JWT format")) /\
  status (handleSecure (E := sample_engine)
            (secure_request "CF_Authorization=header.payload")) = 500%N.
Proof.
  split; [reflexivity|].
  apply (@malformed_token_error sample_engine
           (secure_request "CF_Authorization=header.payload")
           (str "header.payload")).
  - reflexivity.
  - discriminate.
  - vm_compute. discriminate.
Defined.



(** C8 at the sample store and the code [US]. *)
Lemma flag_round_trip_witness :
  FLAGS sample_env (str "US" ++ str ".png") = Found (Normal sample_blob) /\
  exists base64,
    handleCountryFlag (E := sample_engine) (str "US") sample_env
    = flag_response (str "US") base64 /\
    includes (body (handleCountryFlag (E := sample_engine) (str "US")
                      sample_env))
      (str "data:image/png;base64," ++ base64 ++ dquote) = true /\
    atob base64 = Normal (map Byte.to_N sample_blob) /\
    decoded_bytes base64 = Some sample_blob.
Proof.
  split; [reflexivity|].
  apply (@flag_round_trip sample_engine sample_env (str "US") sample_blob).
  reflexivity.
Defined.

(** C4, as stated, fails at the empty token: the cookie
    [CF_Authorization=] gives the empty token, which the dots cut into
    one segment, and the response is the Unauthenticated one, status 401, not
    the malformed-token error. *)
Lemma empty_token_is_unauthenticated :
  jwtToken_of (cookie (secure_request "CF_Authorization=")) = Some [] /\
  List.length (split [] (chr ".")) = 1 /\
  handleSecure (E := sample_engine) (secure_request "CF_Authorization=")
  = unauthenticated /\
  status (handleSecure (E := sample_engine)
            (secure_request "CF_Authorization=")) = 401%N /\
  handleSecure (E := sample_engine) (secure_request "CF_Authorization=")
  <> jwt_error (E := sample_engine) (Error (str "Invalid JWT format")).
Proof.
  repeat split. intros H.
  apply (f_equal status) in H. vm_compute in H. discriminate H.
Qed.


End Claims.

(** ** Further properties of the worker *)

Module Extras.
Import JS Worker Vocabulary Dispatcher JSFacts WorkerFacts.

(** *** Strings *)

Lemma eqb_str_eq (a b : jsstring) : eqb_str a b = true <-> a = b.
Proof.
  revert b. induction a as [|x a IH]; intros [|y b]; cbn [eqb_str];
    try (split; congruence).
  rewrite andb_true_iff, N.eqb_eq, IH. split.
  - intros [-> ->]. reflexivity.
  - intros [= -> ->]. split; reflexivity.
Qed.

Lemma eqb_str_neq (a b : jsstring) : a <> b -> eqb_str a b = false.
Proof.
  intros H. destruct (eqb_str a b) eqn:E; [|reflexivity].
  apply eqb_str_eq in E. contradiction.
Qed.

Lemma split_without (s : jsstring) (sep : code_unit) :
  ~ In sep s -> split s sep = [s].
Proof.
  induction s as [|c s IH]; intros H; cbn [split]; [reflexivity|].
  destruct (N.eqb_spec c sep) as [->|_].
  - destruct H. left. reflexivity.
  - rewrite IH; [reflexivity|]. intros Hin. apply H. right. exact Hin.
Qed.

Lemma split_segment (s rest : jsstring) (sep : code_unit) :
  ~ In sep s -> split (s ++ sep :: rest) sep = s :: split rest sep.
Proof.
  induction s as [|c s IH]; intros H; cbn [app split].
  - rewrite N.eqb_refl. reflexivity.
  - destruct (N.eqb_spec c sep) as [->|_].
    + destruct H. left. reflexivity.
    + rewrite IH; [reflexivity|]. intros Hin. apply H. right. exact Hin.
Qed.

Lemma split_not_nil (s : jsstring) (sep : code_unit) : split s sep <> [].
Proof.
  destruct s as [|c s]; cbn [split]; [discriminate|].
  destruct (N.eqb c sep); [discriminate|].
  destruct (split s sep); discriminate.
Qed.

Lemma split_app (s rest : jsstring) (sep : code_unit) :
  split (s ++ sep :: rest) sep = split s sep ++ split rest sep.
Proof.
  induction s as [|c s IH]; cbn [app split].
  - rewrite N.eqb_refl. reflexivity.
  - destruct (N.eqb c sep); rewrite IH; [reflexivity|].
    pose proof (split_not_nil s sep) as Hs.
    destruct (split s sep); [contradiction|reflexivity].
Qed.

Lemma length_trimStart (s : jsstring) :
  List.length (trimStart s) <= List.length s.
Proof.
  induction s as [|c s IH]; cbn [trimStart]; [lia|].
  destruct (is_white_space c); cbn [List.length]; lia.
Qed.

Lemma trimStart_fixed (c : code_unit) (s : jsstring) :
  trimStart (c :: s) = c :: s -> is_white_space c = false.
Proof.
  cbn [trimStart]. destruct (is_white_space c); [|reflexivity].
  intros H. pose proof (length_trimStart s) as L. rewrite H in L.
  cbn [List.length] in L. lia.
Qed.

Lemma trimEnd_app (prefix s : jsstring) :
  s <> [] -> trimEnd s = s -> trimEnd (prefix ++ s) = prefix ++ s.
Proof.
  unfold trimEnd. intros Hne H.
  apply (f_equal (@rev code_unit)) in H. rewrite rev_involutive in H.
  rewrite rev_app_distr.
  destruct (rev s) as [|c r] eqn:R.
  - apply (f_equal (@rev code_unit)) in R. rewrite rev_involutive in R.
    contradiction.
  - cbn [app trimStart]. rewrite (trimStart_fixed _ _ H).
    change (c :: r ++ rev prefix) with ((c :: r) ++ rev prefix).
    rewrite <- R, <- rev_app_distr, rev_involutive. reflexivity.
Qed.

(** *** The dispatcher *)

Lemma matches_length (s literal : jsstring) :
  matches_ignoring_case s literal = true ->
  List.length s = List.length literal.
Proof.
  unfold matches_ignoring_case, toUpperCase. intros H.
  apply eqb_str_eq in H. apply (f_equal (@List.length code_unit)) in H.
  rewrite !length_map in H. exact H.
Qed.

Lemma countryMatch_i_some (path code : jsstring) :
  countryMatch_i path = Some code ->
  exists prefix a b,
    path = prefix ++ [a; b] /\ code = [a; b] /\
    matches_ignoring_case prefix (str "/secure/") = true /\
    is_ascii_letter a = true /\ is_ascii_letter b = true.
Proof.
  unfold countryMatch_i.
  destruct (matches_ignoring_case (firstn 8 path) (str "/secure/")) eqn:M;
    [|discriminate].
  destruct (skipn 8 path) as [|a [|b [|c r]]] eqn:S; try discriminate.
  destruct (is_ascii_letter a) eqn:A; [|discriminate].
  destruct (is_ascii_letter b) eqn:B; [|discriminate].
  intros [= <-]. exists (firstn 8 path), a, b.
  rewrite <- S, firstn_skipn. auto.
Qed.

Lemma countryMatch_i_match (prefix : jsstring) (a b : code_unit) :
  matches_ignoring_case prefix (str "/secure/") = true ->
  is_ascii_letter a = true ->
  is_ascii_letter b = true ->
  countryMatch_i (prefix ++ [a; b]) = Some [a; b].
Proof.
  intros M A B. pose proof (matches_length _ _ M) as L.
  change (List.length (str "/secure/")) with 8 in L.
  unfold countryMatch_i.
  assert (F : firstn 8 (prefix ++ [a; b]) = prefix).
  { rewrite <- L, firstn_app, Nat.sub_diag, firstn_all. cbn [firstn].
    apply app_nil_r. }
  assert (S : skipn 8 (prefix ++ [a; b]) = [a; b]).
  { rewrite <- L, skipn_app, Nat.sub_diag, skipn_all. reflexivity. }
  rewrite F, S, M, A, B. reflexivity.
Qed.

Lemma upper_unit_letter (c : code_unit) :
  is_ascii_letter c = true -> is_upper (upper_unit c) = true.
Proof.
  unfold is_ascii_letter, is_upper, upper_unit. intros H.
  destruct (N.leb_spec 97 c), (N.leb_spec c 122); cbn [andb] in *.
  - apply andb_true_iff. split; apply N.leb_le; lia.
  - rewrite orb_false_r in H. exact H.
  - rewrite orb_false_r in H. exact H.
  - rewrite orb_false_r in H. exact H.
Qed.

Section Routing.
Context {E : Engine}.

(** X1.  A path that reads [/secure/] and two ASCII letters, in whatever
    letter case, goes to [handleCountryFlag] with the two letters in
    upper case. *)
Theorem flag_route_any_case
  (env : Env) (c : option jsstring) (prefix : jsstring) (a b : code_unit) :
  matches_ignoring_case prefix (str "/secure/") = true ->
  is_ascii_letter a = true ->
  is_ascii_letter b = true ->
  fetch_i {| pathname := prefix ++ [a; b]; cookie := c |} env
  = handleCountryFlag [upper_unit a; upper_unit b] env.
Proof.
  intros M A B. unfold fetch_i. cbn [pathname].
  rewrite eqb_str_neq, (countryMatch_i_match _ _ _ M A B); [reflexivity|].
  intros H. apply (f_equal (@List.length code_unit)) in H.
  rewrite length_app, (matches_length _ _ M) in H. discriminate H.
Qed.

(** X2.  The base route is exact: a path other than [/secure] whose
    length is not that of [/secure/] and two letters gets the response of
    the default route, whatever its letter case or its trailing slash. *)
Theorem other_paths_not_found (request : Request) (env : Env) :
  pathname request <> str "/secure" ->
  List.length (pathname request) <> 10 ->
  fetch_i request env = not_found.
Proof.
  intros Hbase Hlen. unfold fetch_i. rewrite (eqb_str_neq _ _ Hbase).
  destruct (countryMatch_i (pathname request)) as [code|] eqn:M;
    [|reflexivity].
  destruct (countryMatch_i_some _ _ M) as (prefix & a & b & Hp & _ & Hm & _).
  destruct Hlen. rewrite Hp, length_app, (matches_length _ _ Hm).
  reflexivity.
Qed.

(** X3.  The store is read under keys of two upper-case ASCII letters and
    [.png] only: two stores that agree on those keys get the same
    response to every request. *)
Theorem store_read_under_flag_keys (request : Request) (env env' : Env) :
  (forall a b : code_unit,
      is_upper a = true -> is_upper b = true ->
      FLAGS env (flagKey [a; b]) = FLAGS env' (flagKey [a; b])) ->
  fetch_i request env = fetch_i request env'.
Proof.
  intros H. unfold fetch_i.
  destruct (eqb_str (pathname request) (str "/secure")); [reflexivity|].
  destruct (countryMatch_i (pathname request)) as [code|] eqn:M;
    [|reflexivity].
  destruct (countryMatch_i_some _ _ M) as (prefix & a & b & _ & -> & _ & A & B).
  unfold handleCountryFlag. cbv zeta. cbn [toUpperCase map].
  change ([upper_unit a; upper_unit b] ++ str ".png")
    with (flagKey [upper_unit a; upper_unit b]).
  rewrite (H _ _ (upper_unit_letter _ A) (upper_unit_letter _ B)).
  reflexivity.
Qed.

(** Where the literal part of the path is in lower case, and where the
    path is no match in any case, [fetch] and [fetch_i] agree. *)
Lemma fetch_i_lower_case (request : Request) (env : Env) :
  startsWith (pathname request) (str "/secure/") = true ->
  fetch_i request env = fetch request env.
Proof.
  intros H. apply startsWith_inv in H. destruct H as [rest H].
  unfold fetch_i, fetch, countryMatch_i, countryMatch. rewrite H.
  reflexivity.
Qed.

Lemma fetch_i_no_match (request : Request) (env : Env) :
  countryMatch_i (pathname request) = None ->
  fetch_i request env = fetch request env.
Proof.
  intros H. unfold fetch_i, fetch. rewrite H.
  destruct (eqb_str (pathname request) (str "/secure")); [reflexivity|].
  destruct (countryMatch (pathname request)) as [code|] eqn:M;
    [|reflexivity].
  unfold countryMatch in M.
  destruct (startsWith (pathname request) (str "/secure/")) eqn:S;
    [|discriminate].
  apply startsWith_inv in S. destruct S as [rest S].
  rewrite S in H, M. unfold countryMatch_i in H.
  change (firstn 8 (str "/secure/" ++ rest)) with (str "/secure/") in H.
  change (skipn 8 (str "/secure/" ++ rest)) with rest in H.
  change (substring (str "/secure/" ++ rest) (List.length (str "/secure/")))
    with rest in M.
  change (matches_ignoring_case (str "/secure/") (str "/secure/"))
    with true in H.
  cbv iota in H. rewrite H in M. discriminate M.
Qed.

(** The paths of the route examples fare alike under [fetch_i]. *)
Lemma route_dispatch_i (env : Env) (c : option jsstring) :
  fetch_i {| pathname := str "/secure"; cookie := c |} env
  = handleSecure {| pathname := str "/secure"; cookie := c |} /\
  fetch_i {| pathname := str "/secure/us"; cookie := c |} env
  = handleCountryFlag (str "US") env /\
  fetch_i {| pathname := str "/secure/US"; cookie := c |} env
  = handleCountryFlag (str "US") env /\
  (forall x y z : code_unit,
      fetch_i {| pathname := str "/secure/" ++ [x; y; z]; cookie := c |} env
      = not_found).
Proof. repeat split. Qed.

End Routing.

(** *** The cookie loop, read backwards *)

Lemma find_token_none_inv (cookies : list jsstring) :
  find_token cookies = None ->
  Forall (fun pair => has_credential_key pair = false) cookies.
Proof.
  induction cookies as [|pair cookies IH]; cbn [find_token]; intros H;
    constructor.
  - unfold has_credential_key.
    destruct (startsWith (trim pair) cookie_name); [discriminate|reflexivity].
  - apply IH.
    destruct (startsWith (trim pair) cookie_name); [discriminate|exact H].
Qed.

Lemma find_token_some_inv (cookies : list jsstring) (token : jsstring) :
  find_token cookies = Some token ->
  exists before pair after,
    cookies = before ++ pair :: after /\
    Forall (fun p => has_credential_key p = false) before /\
    has_credential_key pair = true /\
    credential_value pair = token.
Proof.
  induction cookies as [|pair cookies IH]; cbn [find_token]; [discriminate|].
  destruct (startsWith (trim pair) cookie_name) eqn:S.
  - intros [= <-]. exists [], pair, cookies. auto.
  - intros H. destruct (IH H) as (before & p & after & -> & Hb & Hp & Hv).
    exists (pair :: before), p, after. auto.
Qed.

Lemma trim_credential (token : jsstring) :
  trimEnd token = token ->
  trim (str " CF_Authorization=" ++ token) = cookie_name ++ token.
Proof.
  intros H. unfold trim.
  change (trimStart (str " CF_Authorization=" ++ token))
    with (cookie_name ++ token).
  destruct token as [|c token]; [reflexivity|].
  apply trimEnd_app; [discriminate|exact H].
Qed.

(** *** The payload characters *)

Lemma base64_char_unit (x : N) : is_base64_unit (base64_char x) = true.
Proof.
  pose proof (base64_char_cases x) as H. cbv zeta in H.
  unfold is_base64_unit, is_ascii_letter, is_digit.
  destruct (N.leb_spec 65 (base64_char x)), (N.leb_spec (base64_char x) 90),
    (N.leb_spec 97 (base64_char x)), (N.leb_spec (base64_char x) 122),
    (N.leb_spec 48 (base64_char x)), (N.leb_spec (base64_char x) 57),
    (N.eqb_spec (base64_char x) 43), (N.eqb_spec (base64_char x) 47);
    cbn; try reflexivity; lia.
Qed.

Lemma base64_encode_units (bytes : list N) :
  Forall (fun c => is_base64_unit c = true) (base64_encode bytes).
Proof.
  induction bytes as [|a|a b|a b c rest IH] using list_ind3;
    cbn [base64_encode]; repeat constructor;
    try apply base64_char_unit; exact IH.
Qed.

Lemma sextet_chars_units (xs : list N) :
  Forall (fun c => is_base64_unit c = true) (map base64_char xs).
Proof.
  induction xs; cbn [map]; constructor; [apply base64_char_unit|assumption].
Qed.

Lemma unit_cases (c : code_unit) :
  is_base64_unit c = true ->
  (65 <= c <= 90 \/ 97 <= c <= 122 \/ 48 <= c <= 57 \/ c = 43 \/ c = 47
   \/ c = 61)%N.
Proof.
  unfold is_base64_unit, is_ascii_letter, is_digit, equals_sign.
  intros Hu.
  destruct (N.leb_spec 65 c), (N.leb_spec c 90), (N.leb_spec 97 c),
    (N.leb_spec c 122), (N.leb_spec 48 c), (N.leb_spec c 57),
    (N.eqb_spec c 43), (N.eqb_spec c 47), (N.eqb_spec c 61);
    cbn in Hu; try discriminate Hu; lia.
Qed.

Lemma url_safe_round_trip (s : jsstring) :
  Forall (fun c => is_base64_unit c = true) s ->
  url_safe_to_standard
    (replace_all (replace_all s (chr "+") (chr "-")) (chr "/") (chr "_"))
  = s.
Proof.
  unfold url_safe_to_standard, replace_all. rewrite !map_map.
  induction 1 as [|c s Hc _ IH]; cbn [map]; [reflexivity|].
  rewrite IH. f_equal.
  apply unit_cases in Hc.
  change (chr "+") with 43%N. change (chr "-") with 45%N.
  change (chr "/") with 47%N. change (chr "_") with 95%N.
  destruct (N.eqb_spec c 43) as [->|?]; [reflexivity|]. cbv beta iota.
  destruct (N.eqb_spec c 47) as [->|?]; [reflexivity|]. cbv beta iota.
  destruct (N.eqb_spec c 45); [lia|]. cbv beta iota.
  destruct (N.eqb_spec c 95); [lia|]. reflexivity.
Qed.

Lemma url_safe_without_dot (s : jsstring) :
  Forall (fun c => is_base64_unit c = true) s ->
  ~ In (chr ".")
      (replace_all (replace_all s (chr "+") (chr "-")) (chr "/") (chr "_")).
Proof.
  unfold replace_all. rewrite map_map. intros H Hin.
  apply in_map_iff in Hin. destruct Hin as (c & Hc & Hin).
  rewrite Forall_forall in H. apply H, unit_cases in Hin.
  revert Hc.
  change (chr "+") with 43%N. change (chr "-") with 45%N.
  change (chr "/") with 47%N. change (chr "_") with 95%N.
  change (chr ".") with 46%N.
  destruct (N.eqb_spec c 43) as [->|?]; [discriminate|]. cbv beta iota.
  destruct (N.eqb_spec c 47) as [->|?]; [discriminate|]. lia.
Qed.

Lemma strip_padding_chars (xs : list N) :
  strip_padding (map base64_char xs) = map base64_char xs.
Proof.
  unfold strip_padding. rewrite <- map_rev.
  destruct (rev xs) as [|x [|y r]]; cbn [map];
    rewrite ?base64_char_not_padding; reflexivity.
Qed.

(** [atob] decodes a text without its padding as well. *)
Lemma atob_without_padding (bytes : list N) :
  Forall is_byte bytes ->
  atob (map base64_char (sextets_of bytes)) = Normal bytes.
Proof.
  intros H.
  assert (F : filter (fun c => negb (is_ascii_whitespace c))
                (map base64_char (sextets_of bytes))
              = map base64_char (sextets_of bytes)).
  { rewrite <- (app_nil_r (map base64_char (sextets_of bytes))) at 1.
    rewrite (filter_chars _ [] (Forall_nil _)). apply app_nil_r. }
  unfold atob. cbv zeta. rewrite !F.
  assert (S : (if Nat.eqb
                    (Nat.modulo
                       (List.length (map base64_char (sextets_of bytes))) 4)
                    0
               then strip_padding (map base64_char (sextets_of bytes))
               else map base64_char (sextets_of bytes))
              = map base64_char (sextets_of bytes)).
  { destruct (Nat.eqb _ 0); [apply strip_padding_chars|reflexivity]. }
  rewrite S, length_map.
  destruct (Nat.eqb_spec (Nat.modulo (List.length (sextets_of bytes)) 4) 1)
    as [L|_]; [destruct (length_sextets_of bytes L)|].
  rewrite (sextets_chars _ (sextets_of_bound _ H)).
  rewrite (decode_sextets_of _ H). reflexivity.
Qed.

Lemma atob_base64url (padded : bool) (text : list N) :
  Forall is_byte text ->
  atob (url_safe_to_standard (base64url padded text)) = Normal text.
Proof.
  intros H. unfold base64url. destruct padded.
  - rewrite (url_safe_round_trip _ (base64_encode_units text)).
    apply atob_base64_encode. exact H.
  - rewrite (url_safe_round_trip _ (sextet_chars_units _)).
    apply atob_without_padding. exact H.
Qed.

Lemma split_token (h p s : jsstring) :
  ~ In (chr ".") h -> ~ In (chr ".") p -> ~ In (chr ".") s ->
  split (token_of h p s) (chr ".") = [h; p; s].
Proof.
  intros Hh Hp Hs. unfold token_of.
  rewrite (split_segment _ _ _ Hh), (split_segment _ _ _ Hp),
    (split_without _ _ Hs).
  reflexivity.
Qed.

Section Tokens.
Context {E : Engine}.

(** X4.  The response is the Unauthenticated one, status 401, exactly
    when the cookie header holds no credential or the first credential
    in it has an empty value. *)
Theorem unauthenticated_iff (request : Request) :
  status (handleSecure request) = 401%N <->
  lacks_credential (cookie request) \/
  exists header before pair after,
    cookie request = Some header /\
    split header (chr ";") = before ++ pair :: after /\
    Forall (fun p => has_credential_key p = false) before /\
    has_credential_key pair = true /\
    credential_value pair = [].
Proof.
  unfold handleSecure. split.
  - intros H.
    destruct (jwtToken_of (cookie request)) as [[|c token]|] eqn:T.
    + right. destruct (cookie request) as [[|x header]|];
        cbn [jwtToken_of] in T; try discriminate T.
      destruct (find_token_some_inv _ _ T)
        as (before & pair & after & Hs & Hb & Hp & Hv).
      exists (x :: header), before, pair, after. auto.
    + cbn [secure_response] in H.
      destruct (claims_page (c :: token)); discriminate H.
    + left. destruct (cookie request) as [[|x header]|];
        cbn [jwtToken_of lacks_credential] in *.
      * repeat constructor.
      * apply find_token_none_inv. exact T.
      * exact I.
  - intros [H|(header & before & pair & after & Hc & Hs & Hb & Hp & Hv)].
    + rewrite (jwtToken_of_lacking _ H). reflexivity.
    + rewrite Hc. destruct header as [|x header]; [reflexivity|].
      cbn [jwtToken_of]. rewrite Hs, (find_token_first _ _ _ Hb Hp), Hv.
      reflexivity.
Qed.

(** X5.  A credential appended to a cookie header that has none is read
    back as it is, provided it holds no semicolon and does not end in
    white space; the response is the one for that token. *)
Theorem credential_read_back (path others token : jsstring) :
  Forall (fun p => has_credential_key p = false) (split others (chr ";")) ->
  ~ In (chr ";") token ->
  trimEnd token = token ->
  let header := others ++ str "; CF_Authorization=" ++ token in
  jwtToken_of (Some header) = Some token /\
  handleSecure {| pathname := path; cookie := Some header |}
  = secure_response (Some token).
Proof.
  intros Hothers Hsemi Htrim header.
  assert (Hsplit : split header (chr ";")
            = split others (chr ";")
              ++ [str " CF_Authorization=" ++ token]).
  { subst header.
    change (str "; CF_Authorization=" ++ token)
      with (chr ";" :: str " CF_Authorization=" ++ token).
    rewrite split_app.
    rewrite (split_without (str " CF_Authorization=" ++ token));
      [reflexivity|].
    intros Hin. apply in_app_or in Hin. destruct Hin as [Hin|Hin].
    - revert Hin. vm_compute. intuition discriminate.
    - contradiction. }
  assert (Hpair : trim (str " CF_Authorization=" ++ token)
                  = cookie_name ++ token)
    by (apply trim_credential; exact Htrim).
  assert (Htoken : jwtToken_of (Some header) = Some token).
  { assert (Hne : header <> []).
    { subst header. destruct others; discriminate. }
    destruct header as [|x rest] eqn:Hh; [contradiction|].
    cbn [jwtToken_of]. rewrite Hsplit.
    rewrite (find_token_first _ [] _ Hothers).
    - unfold credential_value. rewrite Hpair.
      unfold substring. rewrite skipn_app, skipn_all, Nat.sub_diag.
      reflexivity.
    - unfold has_credential_key. rewrite Hpair. apply startsWith_app. }
  split; [exact Htoken|].
  unfold handleSecure. cbn [cookie]. rewrite Htoken. reflexivity.
Qed.

(** X6.  What [decodeJWT] fails with tells the two failures apart: the
    error [Invalid JWT format] comes exactly with a segment count other
    than three, the exception of [atob] or of [JSON.parse] with three
    segments; there is no third kind. *)
Theorem decodeJWT_failures (jwt : jsstring) (e : exn) :
  decodeJWT jwt = Throw e ->
  (List.length (split jwt (chr ".")) <> 3 /\
   e = Error (str "Invalid JWT format")) \/
  (List.length (split jwt (chr ".")) = 3 /\
   (e = InvalidCharacterError \/ exists text, e = SyntaxError text)).
Proof.
  unfold decodeJWT. cbv zeta.
  destruct (Nat.eqb_spec (List.length (split jwt (chr "."))) 3) as [L|L];
    cbn [negb].
  - intros H. right. split; [exact L|].
    destruct (atob _) as [text|e'] eqn:A; cbn [bind] in H.
    + right. exists text. exact (JSON_parse_throws _ _ H).
    + injection H as <-. left. exact (atob_throws _ _ A).
  - intros [= <-]. left. split; [exact L|reflexivity].
Qed.

(** X7.  Round trip through a token: for a text of bytes, the token whose
    middle segment is the URL-safe base64 of the text, padded or not,
    between any header and signature without a dot, decodes to what
    [JSON.parse] makes of the text. *)
Theorem decodeJWT_of_base64url
  (padded : bool) (header signature : jsstring) (text : list N) :
  Forall is_byte text ->
  ~ In (chr ".") header ->
  ~ In (chr ".") signature ->
  decodeJWT (token_of header (base64url padded text) signature)
  = JSON_parse text.
Proof.
  intros Hbytes Hh Hs.
  assert (Hp : ~ In (chr ".") (base64url padded text)).
  { unfold base64url. apply url_safe_without_dot.
    destruct padded; [apply base64_encode_units|apply sextet_chars_units]. }
  rewrite (decodeJWT_segments _ _ _ _ (split_token _ _ _ Hh Hp Hs)).
  rewrite (atob_base64url _ _ Hbytes). reflexivity.
Qed.

(** X8.  A payload that is the JSON [null] is caught at the first
    property read: status 500 and the error page with the message of the
    [TypeError] for [email]. *)
Theorem null_payload_error (request : Request) (token : jsstring) :
  jwtToken_of (cookie request) = Some token ->
  decodeJWT token = Normal VNull ->
  handleSecure request = jwt_error (TypeError (str "email")) /\
  status (handleSecure request) = 500%N.
Proof.
  intros Htoken Hdecode. unfold handleSecure. rewrite Htoken.
  rewrite (secure_response_nonempty _ (decodeJWT_normal_nonempty _ _ Hdecode)).
  unfold claims_page. rewrite Hdecode. split; reflexivity.
Qed.

(** X9.  A payload that is JSON but neither [null] nor a record (a
    number, a string, a boolean, an array) is not rejected: the response
    has status 200 and the page of a record without members, [Unknown]
    for email, time and country. *)
Theorem scalar_payload_renders_unknown
  (request : Request) (token : jsstring) (v : value) :
  jwtToken_of (cookie request) = Some token ->
  decodeJWT token = Normal v ->
  is_scalar_or_array v = true ->
  handleSecure request = claims_response unknown_page.
Proof.
  intros Htoken Hdecode Hv. unfold handleSecure. rewrite Htoken.
  rewrite (secure_response_nonempty _ (decodeJWT_normal_nonempty _ _ Hdecode)).
  unfold claims_page. rewrite Hdecode.
  destruct v; try discriminate Hv; reflexivity.
Qed.



End Tokens.

(** *** The flag route *)

Lemma length_base64_encode (bytes : list N) :
  List.length (base64_encode bytes) = 4 * ((List.length bytes + 2) / 3).
Proof.
  induction bytes as [|a|a b|a b c rest IH] using list_ind3;
    try reflexivity.
  cbn [base64_encode List.length]. rewrite IH.
  replace (S (S (S (List.length rest))) + 2)
    with (List.length rest + 2 + 1 * 3) by lia.
  rewrite Nat.div_add by discriminate. lia.
Qed.

Lemma startsWith_both (a s needle : jsstring) :
  startsWith s needle = true -> startsWith (a ++ s) (a ++ needle) = true.
Proof.
  intros H. induction a as [|c a IH]; cbn [app startsWith]; [exact H|].
  rewrite N.eqb_refl. exact IH.
Qed.

Lemma renderHTML_title (title content : jsstring) :
  includes (renderHTML title content)
    (str "<title>" ++ title ++ str "</title>") = true.
Proof.
  unfold renderHTML.
  repeat first [ apply includes_app_l, includes_line, includes_refl
               | apply includes_app_r ].
Qed.

Lemma renderHTML_heading (title content : jsstring) :
  includes (renderHTML title content)
    (str "<h1>" ++ title ++ str "</h1>") = true.
Proof.
  unfold renderHTML.
  repeat first [ apply includes_app_l, includes_line, includes_refl
               | apply includes_app_r ].
Qed.

(** X12.  The shell holds the title in the title element and in the
    heading, and the content, each as given; the page is as long as the
    empty shell, 731 characters, twice the title and the content
    together. *)
Theorem renderHTML_holds_its_arguments (title content : jsstring) :
  includes (renderHTML title content)
    (str "<title>" ++ title ++ str "</title>") = true /\
  includes (renderHTML title content)
    (str "<h1>" ++ title ++ str "</h1>") = true /\
  includes (renderHTML title content) content = true /\
  List.length (renderHTML title content)
  = 731 + 2 * List.length title + List.length content.
Proof.
  repeat split.
  - apply renderHTML_title.
  - apply renderHTML_heading.
  - apply renderHTML_content, includes_refl.
  - unfold renderHTML, line. rewrite !length_app. cbn [List.length tabs].
    change (List.length newline) with 1.
    repeat match goal with
           | |- context [List.length (str ?s)] =>
               let n := eval vm_compute in (List.length (str s)) in
               change (List.length (str s)) with n
           end.
    change (List.length dquote) with 1. lia.
Qed.

(** X13.  [blobToBase64] never throws: it returns a text of four
    characters for every three bytes begun, made of letters, digits, [+],
    [/] and [=] only, so without a quote or an angle bracket. *)
Theorem blobToBase64_shape (blob : list byte) :
  exists base64,
    blobToBase64 blob = Normal base64 /\
    List.length base64 = 4 * ((List.length blob + 2) / 3) /\
    Forall (fun c => is_base64_unit c = true) base64.
Proof.
  exists (base64_encode (map Byte.to_N blob)). repeat split.
  - apply blobToBase64_normal.
  - rewrite length_base64_encode, length_map. reflexivity.
  - apply base64_encode_units.
Qed.

(** X14.  Two blobs that differ give texts that differ. *)
Theorem blobToBase64_injective (blob1 blob2 : list byte) :
  blob1 <> blob2 -> blobToBase64 blob1 <> blobToBase64 blob2.
Proof.
  intros Hne H. rewrite !blobToBase64_normal in H. injection H as H.
  apply (f_equal atob) in H.
  rewrite !atob_base64_encode in H by apply blob_is_bytes.
  injection H as H. apply (f_equal bytes_of_binary) in H.
  rewrite !bytes_of_binary_blob in H. injection H as H. contradiction.
Qed.

Section Flags.
Context {E : Engine}.

(** X15.  The status of the flag route tells what the store did: 200
    exactly when it returned the bytes of an object, 404 exactly when it
    has no object under the key, 500 exactly when the read was rejected;
    the encoding of the bytes adds no failure. *)
Theorem flag_status (country : jsstring) (env : Env) :
  (status (handleCountryFlag country env) = 200%N <->
   exists blob, FLAGS env (flagKey country) = Found (Normal blob)) /\
  (status (handleCountryFlag country env) = 404%N <->
   FLAGS env (flagKey country) = Missing) /\
  (status (handleCountryFlag country env) = 500%N <->
   exists error,
     FLAGS env (flagKey country) = Rejects error \/
     FLAGS env (flagKey country) = Found (Throw error)).
Proof.
  unfold handleCountryFlag, flagKey. cbv zeta.
  destruct (FLAGS env (country ++ str ".png")) as [e| |[blob|e]];
    rewrite ?blobToBase64_normal;
    cbn [status flag_error flag_missing flag_response].
  - repeat split; intros H; try discriminate H.
    + destruct H as [blob H]. discriminate H.
    + exists e. left. reflexivity.
  - repeat split; intros H; try discriminate H.
    + destruct H as [blob H]. discriminate H.
    + destruct H as [e [H|H]]; discriminate H.
  - repeat split; intros H; try discriminate H.
    + exists blob. reflexivity.
    + destruct H as [e [H|H]]; discriminate H.
  - repeat split; intros H; try discriminate H.
    + destruct H as [blob H]. discriminate H.
    + exists e. right. reflexivity.
Qed.

(** X16.  For a code without an object in the store the response has
    status 404 and a page of the shell that names the code, in its title
    and in its message, and links back to [/secure]. *)
Theorem missing_flag_page (country : jsstring) (env : Env) :
  FLAGS env (flagKey country) = Missing ->
  let response := handleCountryFlag country env in
  status response = 404%N /\
  headers response = html_headers /\
  includes (body response)
    (str "<title>Flag for " ++ country ++ str "</title>") = true /\
  includes (body response)
    (str "<p>Flag for country code " ++ dquote ++ country ++ dquote ++
     str " not found.</p>") = true /\
  includes (body response)
    (str "<a href=" ++ dquote ++ str "/secure" ++ dquote ++ str ">") = true.
Proof.
  intros H. unfold handleCountryFlag, flagKey in *. cbv zeta. rewrite H.
  cbn [status headers body flag_missing]. repeat split.
  - exact (renderHTML_title (str "Flag for " ++ country) _).
  - apply renderHTML_content, includes_prefix.
    do 4 apply startsWith_both. apply startsWith_app.
  - apply renderHTML_content.
    do 7 apply includes_app_r.
    change (str "<p><a href=") with (str "<p>" ++ str "<a href=").
    rewrite <- app_assoc. apply includes_app_r, includes_prefix.
    do 4 apply startsWith_both. apply startsWith_app.
Qed.

(** X17.  When the store rejects the read, at [get] or at [blob], the
    response has status 500 and the error page of the shell with the
    message of the rejection after [Error loading flag: ]. *)
Theorem store_failure_page (country : jsstring) (env : Env) (error : exn) :
  FLAGS env (flagKey country) = Rejects error \/
  FLAGS env (flagKey country) = Found (Throw error) ->
  handleCountryFlag country env = flag_error error /\
  status (handleCountryFlag country env) = 500%N /\
  includes (body (handleCountryFlag country env))
    (str "<p>Error loading flag: " ++ message error ++ str "</p>") = true.
Proof.
  intros H.
  assert (R : handleCountryFlag country env = flag_error error).
  { unfold handleCountryFlag, flagKey in *. cbv zeta.
    destruct H as [-> | ->]; reflexivity. }
  rewrite R. repeat split.
  cbn [body flag_error]. apply renderHTML_content, includes_refl.
Qed.

End Flags.

(** *** The properties at concrete requests *)

(** X1 at the path [/SeCuRe/uS]. *)
Lemma flag_route_any_case_witness :
  matches_ignoring_case (str "/SeCuRe/") (str "/secure/") = true /\
  fetch_i (E := sample_engine)
    {| pathname := str "/SeCuRe/uS"; cookie := None |} sample_env
  = handleCountryFlag (E := sample_engine) (str "US") sample_env.
Proof.
  split; [reflexivity|].
  apply (@flag_route_any_case sample_engine sample_env None
           (str "/SeCuRe/") (chr "u") (chr "S")); reflexivity.
Defined.

(** X2 at the path [/Secure]. *)
Lemma other_paths_not_found_witness :
  fetch_i (E := sample_engine)
    {| pathname := str "/Secure"; cookie := None |} sample_env
  = not_found.
Proof.
  apply (@other_paths_not_found sample_engine
           {| pathname := str "/Secure"; cookie := None |} sample_env).
  - discriminate.
  - vm_compute. discriminate.
Defined.

(** X3 at the sample store and the same store with one more object. *)
Lemma store_read_under_flag_keys_witness :
  FLAGS sample_env (str "notes.txt")
  <> FLAGS sample_env_with_notes (str "notes.txt") /\
  fetch_i (E := sample_engine)
    {| pathname := str "/secure/us"; cookie := None |} sample_env
  = fetch_i (E := sample_engine)
      {| pathname := str "/secure/us"; cookie := None |}
      sample_env_with_notes.
Proof.
  split; [discriminate|].
  apply (@store_read_under_flag_keys sample_engine).
  intros a b _ _. unfold sample_env_with_notes, flagKey. cbn [FLAGS].
  rewrite eqb_str_neq; [reflexivity|].
  intros H. apply (f_equal (@List.length code_unit)) in H. discriminate H.
Defined.

(** X5 at a credential after one other cookie. *)
Lemma credential_read_back_witness :
  jwtToken_of (Some (str "theme=dark; CF_Authorization=a.b.c"))
  = Some (str "a.b.c") /\
  handleSecure (E := sample_engine)
    (secure_request "theme=dark; CF_Authorization=a.b.c")
  = secure_response (E := sample_engine) (Some (str "a.b.c")).
Proof.
  apply (@credential_read_back sample_engine (str "/secure")
           (str "theme=dark") (str "a.b.c")).
  - repeat constructor.
  - vm_compute. intuition discriminate.
  - reflexivity.
Defined.

(** X6 at a token of two segments. *)
Lemma decodeJWT_failures_witness :
  decodeJWT (str "a.b") = Throw (Error (str "Invalid JWT format")) /\
  ((List.length (split (str "a.b") (chr ".")) <> 3 /\
    Error (str "Invalid JWT format") = Error (str "Invalid JWT format")) \/
   (List.length (split (str "a.b") (chr ".")) = 3 /\
    (Error (str "Invalid JWT format") = InvalidCharacterError \/
     exists text, Error (str "Invalid JWT format") = SyntaxError text))).
Proof.
  split; [reflexivity|].
  apply (decodeJWT_failures (str "a.b") (Error (str "Invalid JWT format"))).
  reflexivity.
Defined.

(** X7 at the text of the empty record. *)
Lemma decodeJWT_of_base64url_witness :
  base64url false (str "{}") = str "e30" /\
  decodeJWT (token_of (str "h") (base64url false (str "{}")) (str "s"))
  = JSON_parse (str "{}").
Proof.
  split; [reflexivity|].
  apply (decodeJWT_of_base64url false (str "h") (str "s") (str "{}")).
  - repeat constructor.
  - vm_compute. intuition discriminate.
  - vm_compute. intuition discriminate.
Defined.

(** X8 at the payload segment of [null]. *)
Lemma null_payload_error_witness :
  decodeJWT (str "h.bnVsbA.s") = Normal VNull /\
  handleSecure (E := sample_engine)
    (secure_request "CF_Authorization=h.bnVsbA.s")
  = jwt_error (E := sample_engine) (TypeError (str "email")) /\
  status (handleSecure (E := sample_engine)
            (secure_request "CF_Authorization=h.bnVsbA.s")) = 500%N.
Proof.
  split; [reflexivity|].
  apply (@null_payload_error sample_engine
           (secure_request "CF_Authorization=h.bnVsbA.s")
           (str "h.bnVsbA.s")); reflexivity.
Defined.

(** X9 at the payload segment of the number 5. *)
Lemma scalar_payload_renders_unknown_witness :
  decodeJWT (str "h.NQ.s") = Normal (VNum (Int 5)) /\
  handleSecure (E := sample_engine)
    (secure_request "CF_Authorization=h.NQ.s")
  = claims_response unknown_page.
Proof.
  split; [reflexivity|].
  apply (@scalar_payload_renders_unknown sample_engine
           (secure_request "CF_Authorization=h.NQ.s")
           (str "h.NQ.s") (VNum (Int 5))); reflexivity.
Defined.



(** X14 at two blobs of one byte. *)
Lemma blobToBase64_injective_witness :
  blobToBase64 [x00] <> blobToBase64 [x01].
Proof.
  apply (blobToBase64_injective [x00] [x01]). discriminate.
Defined.

(** X16 at the sample store and the code [ZZ]. *)
Lemma missing_flag_page_witness :
  FLAGS sample_env (flagKey (str "ZZ")) = Missing /\
  status (handleCountryFlag (E := sample_engine) (str "ZZ") sample_env)
  = 404%N /\
  includes
    (body (handleCountryFlag (E := sample_engine) (str "ZZ") sample_env))
    (str "<p>Flag for country code " ++ dquote ++ str "ZZ" ++ dquote ++
     str " not found.</p>") = true.
Proof.
  split; [reflexivity|].
  destruct (@missing_flag_page sample_engine (str "ZZ") sample_env eq_refl)
    as (Hstatus & _ & _ & Hmessage & _).
  split; [exact Hstatus|exact Hmessage].
Defined.

(** X17 at the store whose reads are rejected. *)
Lemma store_failure_page_witness :
  handleCountryFlag (E := sample_engine) (str "US") failing_env
  = flag_error (E := sample_engine) (Error (str "bucket unavailable")) /\
  status (handleCountryFlag (E := sample_engine) (str "US") failing_env)
  = 500%N /\
  includes
    (body (handleCountryFlag (E := sample_engine) (str "US") failing_env))
    (str "<p>Error loading flag: " ++ str "bucket unavailable" ++
     str "</p>") = true.
Proof.
  apply (@store_failure_page sample_engine (str "US") failing_env
           (Error (str "bucket unavailable"))).
  left. reflexivity.
Defined.

End Extras.
